(** * SmartSheetConnect: the shared lead-submission schema, the setup wizard's
    step handling and the configuration fetch layer

    A shallow embedding of
    - [shared/schema.ts] (the Zod schema [leadSubmissionSchema], [sanitizeInput],
      [phoneRegex]),
    - the setup wizard page (the step initializer and the setup-status query),
    - [client/src/components/SocialProofSection.tsx] ([useAppConfig]).

    JavaScript strings are modelled as Rocq strings whose characters are the
    UTF-16 code units below 256 (ASCII and Latin-1); [length], [trim],
    [toLowerCase] and the regular-expression class [\s] are the JavaScript
    ones restricted to that range.  The two third-party functions the schema
    calls, DOMPurify's [sanitize] (with every tag and attribute disallowed) and
    Zod's e-mail format test, are Section variables: every theorem about the
    schema holds for whatever these functions compute. *)

From Stdlib Require Import ZArith QArith_base String Ascii List Bool Lia.
From stdpp Require Import base option gmap strings pretty.
Import ListNotations.

Local Open Scope string_scope.
Local Open Scope bool_scope.

(** stdpp keeps [simpl] from unfolding string concatenation; here it should
    compute on constructors. *)
Local Arguments String.append !_ _ / : simpl nomatch.

(* ===================================================================== *)
(** ** JavaScript strings *)
(* ===================================================================== *)

Module JsString.

(** [String.prototype.length]. *)
Definition length (s : string) : nat := String.length s.

Definition code (c : ascii) : nat := nat_of_ascii c.

(** WhiteSpace and LineTerminator code units below 256: TAB, LF, VT, FF, CR,
    SPACE and NBSP.  This is the set [trim] removes and [\s] matches. *)
Definition isWhiteSpace (c : ascii) : bool :=
  let n := code c in
  ((9 <=? n)%nat && (n <=? 13)%nat) || (n =? 32)%nat || (n =? 160)%nat.

Fixpoint trimStart (s : string) : string :=
  match s with
  | EmptyString => EmptyString
  | String c s' => if isWhiteSpace c then trimStart s' else s
  end.

Fixpoint trimEnd (s : string) : string :=
  match s with
  | EmptyString => EmptyString
  | String c s' =>
      match trimEnd s' with
      | EmptyString => if isWhiteSpace c then EmptyString else String c EmptyString
      | t => String c t
      end
  end.

(** [String.prototype.trim]. *)
Definition trim (s : string) : string := trimEnd (trimStart s).

Definition isUpper (c : ascii) : bool :=
  let n := code c in
  ((65 <=? n)%nat && (n <=? 90)%nat)
  || ((192 <=? n)%nat && (n <=? 222)%nat && negb (n =? 215)%nat).

Definition lowerChar (c : ascii) : ascii :=
  if isUpper c then ascii_of_nat (code c + 32) else c.

(** [String.prototype.toLowerCase] on code units below 256. *)
Fixpoint toLowerCase (s : string) : string :=
  match s with
  | EmptyString => EmptyString
  | String c s' => String (lowerChar c) (toLowerCase s')
  end.

Fixpoint startsWith (p s : string) : bool :=
  match p, s with
  | EmptyString, _ => true
  | String a p', String b s' => Ascii.eqb a b && startsWith p' s'
  | String _ _, EmptyString => false
  end.

(** [String.prototype.includes]. *)
Fixpoint includes (s p : string) : bool :=
  startsWith p s ||
  match s with
  | EmptyString => false
  | String _ s' => includes s' p
  end.

(** [String.prototype.repeat]. *)
Fixpoint repeat (s : string) (n : nat) : string :=
  match n with
  | O => EmptyString
  | S n' => s +:+ repeat s n'
  end.

(** [s.replace(/\s/g, "")]: every white-space code unit removed. *)
Fixpoint removeWhiteSpace (s : string) : string :=
  match s with
  | EmptyString => EmptyString
  | String c s' =>
      if isWhiteSpace c then removeWhiteSpace s' else String c (removeWhiteSpace s')
  end.

Definition isLineBreak (c : ascii) : bool :=
  (code c =? 13)%nat || (code c =? 10)%nat.

(** [/[\r\n]/.test(s)]: some code unit of [s] is CR or LF. *)
Fixpoint hasLineBreak (s : string) : bool :=
  match s with
  | EmptyString => false
  | String c s' => isLineBreak c || hasLineBreak s'
  end.

(** A string is trimmed at the front when it is empty or starts with a
    character that is not white space. *)
Definition frontTrimmed (s : string) : Prop :=
  match s with
  | EmptyString => True
  | String c _ => isWhiteSpace c = false
  end.

End JsString.

(* ===================================================================== *)
(** ** Regular expressions (the fragment the sources use) *)
(* ===================================================================== *)

Module Regex.

Inductive regex : Type :=
| Eps : regex
| Void : regex
| Cls : (ascii -> bool) -> regex
| Cat : regex -> regex -> regex
| Alt : regex -> regex -> regex
| Star : regex -> regex.

(** [r?], [r{n}] and [r{m,n}] (written [Between r m (n - m)]). *)
Definition Opt (r : regex) : regex := Alt r Eps.

Fixpoint Times (r : regex) (n : nat) : regex :=
  match n with
  | O => Eps
  | S n' => Cat r (Times r n')
  end.

Fixpoint AtMost (r : regex) (n : nat) : regex :=
  match n with
  | O => Eps
  | S n' => Opt (Cat r (AtMost r n'))
  end.

Definition Between (r : regex) (m extra : nat) : regex :=
  Cat (Times r m) (AtMost r extra).

Definition Chr (c : ascii) : regex := Cls (Ascii.eqb c).

Fixpoint nullable (r : regex) : bool :=
  match r with
  | Eps => true
  | Void => false
  | Cls _ => false
  | Cat r1 r2 => nullable r1 && nullable r2
  | Alt r1 r2 => nullable r1 || nullable r2
  | Star _ => true
  end.

Fixpoint deriv (c : ascii) (r : regex) : regex :=
  match r with
  | Eps => Void
  | Void => Void
  | Cls p => if p c then Eps else Void
  | Cat r1 r2 =>
      if nullable r1
      then Alt (Cat (deriv c r1) r2) (deriv c r2)
      else Cat (deriv c r1) r2
  | Alt r1 r2 => Alt (deriv c r1) (deriv c r2)
  | Star r1 => Cat (deriv c r1) (Star r1)
  end.

(** [/^r$/.test(s)]: the whole of [s] matches [r]. *)
Fixpoint test (r : regex) (s : string) : bool :=
  match s with
  | EmptyString => nullable r
  | String c s' => test (deriv c r) s'
  end.

(** The language of a regular expression. *)
Inductive Matches : regex -> string -> Prop :=
| MEps : Matches Eps EmptyString
| MCls p c : p c = true -> Matches (Cls p) (String c EmptyString)
| MCat r1 r2 s1 s2 : Matches r1 s1 -> Matches r2 s2 -> Matches (Cat r1 r2) (s1 +:+ s2)
| MAltL r1 r2 s : Matches r1 s -> Matches (Alt r1 r2) s
| MAltR r1 r2 s : Matches r2 s -> Matches (Alt r1 r2) s
| MStar0 r : Matches (Star r) EmptyString
| MStarS r s1 s2 : Matches r s1 -> Matches (Star r) s2 -> Matches (Star r) (s1 +:+ s2).

End Regex.

(* ===================================================================== *)
(** ** Zod: the parsing combinators the schema is built from *)
(* ===================================================================== *)

Module Zod.

(** The untrusted values a field of the parsed object may hold. *)
Inductive JsValue : Type :=
| JsUndefined : JsValue
| JsNull : JsValue
| JsBoolean : bool -> JsValue
| JsNumber : Z -> JsValue
| JsString : string -> JsValue.

Record ZodIssue : Type := mkIssue { path : list string; message : string }.

(** Zod's [ParseReturnType]: [OK] is status "valid", [DIRTY] carries a value
    together with the issues recorded so far, [INVALID] is status "aborted".
    The issues Zod adds to the shared parse context are threaded explicitly. *)
Inductive ParseReturn (A : Type) : Type :=
| OK : A -> ParseReturn A
| DIRTY : A -> list ZodIssue -> ParseReturn A
| INVALID : list ZodIssue -> ParseReturn A.

Arguments OK {A} _.
Arguments DIRTY {A} _ _.
Arguments INVALID {A} _.

Definition ZodType (I O : Type) : Type := I -> ParseReturn O.

Definition issuesOf {A} (r : ParseReturn A) : list ZodIssue :=
  match r with
  | OK _ => []
  | DIRTY _ iss => iss
  | INVALID iss => iss
  end.


(** A value with the issues found while computing it. *)
Definition finish {A} (v : A) (iss : list ZodIssue) : ParseReturn A :=
  match iss with
  | [] => OK v
  | _ => DIRTY v iss
  end.

Definition typeName (v : JsValue) : string :=
  match v with
  | JsUndefined => "undefined"
  | JsNull => "null"
  | JsBoolean _ => "boolean"
  | JsNumber _ => "number"
  | JsString _ => "string"
  end.

Definition invalidType (v : JsValue) : ZodIssue :=
  match v with
  | JsUndefined => mkIssue [] "Required"
  | _ => mkIssue [] ("Expected string, received " +:+ typeName v)
  end.

(** The checks of a [ZodString], in the order the method chain adds them. *)
Inductive StringCheck : Type :=
| CheckMin : nat -> string -> StringCheck
| CheckMax : nat -> string -> StringCheck
| CheckEmail : string -> StringCheck
| CheckTrim : StringCheck.

Section ZodString.

(** Zod's e-mail format test. *)
Variable emailRegex : string -> bool.

(** [ZodString._parse]'s loop over the checks: a failed check records its
    issue and the loop goes on; [trim] replaces the data for the checks after
    it. *)
Fixpoint runChecks (checks : list StringCheck) (data : string)
  (iss : list ZodIssue) : string * list ZodIssue :=
  match checks with
  | [] => (data, iss)
  | CheckMin n msg :: cs =>
      runChecks cs data
        (if (JsString.length data <? n)%nat then iss ++ [mkIssue [] msg] else iss)
  | CheckMax n msg :: cs =>
      runChecks cs data
        (if (n <? JsString.length data)%nat then iss ++ [mkIssue [] msg] else iss)
  | CheckEmail msg :: cs =>
      runChecks cs data
        (if emailRegex data then iss else iss ++ [mkIssue [] msg])
  | CheckTrim :: cs => runChecks cs (JsString.trim data) iss
  end.

(** [z.string()] with its checks. *)
Definition z_string (checks : list StringCheck) : ZodType JsValue string :=
  fun input =>
    match input with
    | JsString s => let (v, iss) := runChecks checks s [] in finish v iss
    | _ => INVALID [invalidType input]
    end.

End ZodString.

(** [schema.refine(check, message)]: the refinement also runs on a dirty
    value, and never on an aborted parse. *)
Definition refine {I A} (schema : ZodType I A) (check : A -> bool)
  (msg : string) : ZodType I A :=
  fun input =>
    match schema input with
    | INVALID iss => INVALID iss
    | DIRTY v iss => DIRTY v (if check v then iss else iss ++ [mkIssue [] msg])
    | OK v => if check v then OK v else DIRTY v [mkIssue [] msg]
    end.

(** [schema.transform(f)]: [f] runs only on a valid value; otherwise the
    issues of the inner parse are all there is. *)
Definition transform {I A B} (schema : ZodType I A) (f : A -> B) : ZodType I B :=
  fun input =>
    match schema input with
    | OK v => OK (f v)
    | DIRTY _ iss => INVALID iss
    | INVALID iss => INVALID iss
    end.

(** [a.pipe(b)]: [b] parses the output of [a] only when [a] is valid. *)
Definition pipe {I A B} (a : ZodType I A) (b : ZodType A B) : ZodType I B :=
  fun input =>
    match a input with
    | OK v => b v
    | DIRTY _ iss => INVALID iss
    | INVALID iss => INVALID iss
    end.

(** [schema.optional()]. *)
Definition optional {A} (schema : ZodType JsValue A) : ZodType JsValue (option A) :=
  fun input =>
    match input with
    | JsUndefined => OK None
    | _ =>
        match schema input with
        | OK v => OK (Some v)
        | DIRTY v iss => DIRTY (Some v) iss
        | INVALID iss => INVALID iss
        end
    end.

(** The parse of the value under [key] of an object: its issues get [key] in
    front of their path. *)
Definition atKey {A} (key : string) (r : ParseReturn A) : ParseReturn A :=
  let pre := map (fun i => mkIssue (key :: path i) (message i)) in
  match r with
  | OK v => OK v
  | DIRTY v iss => DIRTY v (pre iss)
  | INVALID iss => INVALID (pre iss)
  end.

(** [ParseStatus.mergeObjectSync], one key at a time: the object is aborted
    as soon as one key is, dirty when one is dirty, and the issues of the keys
    come in the order of the shape. *)
Definition ap {A B} (rf : ParseReturn (A -> B)) (ra : ParseReturn A) : ParseReturn B :=
  match rf, ra with
  | OK f, OK a => OK (f a)
  | OK f, DIRTY a iss => DIRTY (f a) iss
  | DIRTY f iss, OK a => DIRTY (f a) iss
  | DIRTY f iss1, DIRTY a iss2 => DIRTY (f a) (iss1 ++ iss2)
  | _, _ => INVALID (issuesOf rf ++ issuesOf ra)
  end.

(** The result of [schema.safeParse(input)]. *)
Inductive SafeParseReturn (A : Type) : Type :=
| Success : A -> SafeParseReturn A
| Failure : list ZodIssue -> SafeParseReturn A.

Arguments Success {A} _.
Arguments Failure {A} _.

Definition safeParse {I A} (schema : ZodType I A) (input : I) : SafeParseReturn A :=
  match schema input with
  | OK v => Success v
  | DIRTY _ iss => Failure iss
  | INVALID iss => Failure iss
  end.

Definition issues {A} (r : SafeParseReturn A) : list ZodIssue :=
  match r with
  | Success _ => []
  | Failure iss => iss
  end.

(** The messages of the issues reported for the key [key] of the object. *)
Definition messagesAt (key : string) (iss : list ZodIssue) : list string :=
  map message (filter (fun i => path i = [key]) iss).

(** Issues whose path is still empty: those of a schema that is not an
    object. *)
Definition Rooted (iss : list ZodIssue) : Prop := Forall (fun i => path i = []) iss.

Definition prefixed (key : string) (iss : list ZodIssue) : list ZodIssue :=
  map (fun i => mkIssue (key :: path i) (message i)) iss.

Definition issue (msg : string) : ZodIssue := mkIssue [] msg.

Definition when (b : bool) (msg : string) : list string := if b then [msg] else [].

End Zod.

(* ===================================================================== *)
(** ** shared/schema.ts *)
(* ===================================================================== *)

Module Schema.

Import Zod Regex.

Record LeadSubmission : Type := mkLead {
  name : string;
  email : string;
  phone : option string;
  message : string
}.

(** The object handed to the schema: the values under its four keys. *)
Record RawLead : Type := mkRaw {
  raw_name : JsValue;
  raw_email : JsValue;
  raw_phone : JsValue;
  raw_message : JsValue
}.

Definition digit : regex :=
  Cls (fun c => (48 <=? JsString.code c)%nat && (JsString.code c <=? 57)%nat).

(** The class [[-\s.]]. *)
Definition separator : regex :=
  Cls (fun c => Ascii.eqb c "-" || JsString.isWhiteSpace c || Ascii.eqb c ".").

(** [/^[+]?[(]?[0-9]{3}[)]?[-\s.]?[0-9]{3}[-\s.]?[0-9]{4,6}$/] *)
Definition phoneRegex : regex :=
  Cat (Opt (Chr "+"))
  (Cat (Opt (Chr "("))
  (Cat (Times digit 3)
  (Cat (Opt (Chr ")"))
  (Cat (Opt separator)
  (Cat (Times digit 3)
  (Cat (Opt separator)
       (Between digit 4 2))))))).

(** The phone pattern as the specification words it: an optional leading
    plus, an optional opening parenthesis, three digits, an optional closing
    parenthesis, an optional separator, three digits, an optional separator,
    and four to six digits; a separator is a dash, a white-space character or
    a dot. *)
Fixpoint allDigits (s : string) : bool :=
  match s with
  | EmptyString => true
  | String c s' =>
      (48 <=? JsString.code c)%nat && (JsString.code c <=? 57)%nat && allDigits s'
  end.

Definition optionalChar (c : ascii) (s : string) : Prop :=
  s = EmptyString \/ s = String c EmptyString.

Definition optionalSeparator (s : string) : Prop :=
  s = EmptyString \/
  exists c, s = String c EmptyString /\
    (c = "-"%char \/ JsString.isWhiteSpace c = true \/ c = "."%char).

Definition digitGroup (lo hi : nat) (s : string) : Prop :=
  allDigits s = true /\ (lo <= JsString.length s)%nat /\ (JsString.length s <= hi)%nat.

Definition LoosePhonePattern (s : string) : Prop :=
  exists plus lpar area rpar sep1 exch sep2 sub,
    s = plus +:+ lpar +:+ area +:+ rpar +:+ sep1 +:+ exch +:+ sep2 +:+ sub
    /\ optionalChar "+" plus
    /\ optionalChar "(" lpar
    /\ digitGroup 3 3 area
    /\ optionalChar ")" rpar
    /\ optionalSeparator sep1
    /\ digitGroup 3 3 exch
    /\ optionalSeparator sep2
    /\ digitGroup 4 6 sub.

Section WithLibraries.

(** [DOMPurify.sanitize(input, { ALLOWED_TAGS: [], ALLOWED_ATTR: [] })]. *)
Variable purify : string -> string.

(** The format test behind Zod's [.email()]. *)
Variable emailRegex : string -> bool.

Definition sanitizeInput (input : string) : string :=
  JsString.trim (purify input).

Definition nameSchema : ZodType JsValue string :=
  pipe
    (transform
       (z_string emailRegex
          [CheckMin 1 "Name is required"; CheckMax 100 "Name is too long"])
       sanitizeInput)
    (fun v => z_string emailRegex [CheckMin 1 "Name is required"] (JsString v)).

Definition emailSchema : ZodType JsValue string :=
  transform
    (refine
       (z_string emailRegex
          [CheckTrim;
           CheckEmail "Please enter a valid email address";
           CheckMax 255 "Email is too long"])
       (fun val => negb (JsString.hasLineBreak val))
       "Email cannot contain newlines")
    (fun val => JsString.toLowerCase (sanitizeInput val)).

(** The refinement's test [!val || phoneRegex.test(val.replace(/\s/g, ""))]:
    [!val] holds of [undefined] and of the empty string. *)
Definition phoneCheck (val : option string) : bool :=
  match val with
  | None => true
  | Some EmptyString => true
  | Some s => Regex.test phoneRegex (JsString.removeWhiteSpace s)
  end.

Definition phoneSchema : ZodType JsValue (option string) :=
  refine (optional (z_string emailRegex []))
    phoneCheck "Please enter a valid phone number".

Definition messageSchema : ZodType JsValue string :=
  pipe
    (transform
       (z_string emailRegex
          [CheckMin 1 "Message is required"; CheckMax 1000 "Message is too long"])
       sanitizeInput)
    (fun v =>
       z_string emailRegex
         [CheckMin 1 "Message is required"; CheckMax 1000 "Message is too long"]
         (JsString v)).

(** [z.object({ name, email, phone, message })] on an object. *)
Definition leadSubmissionSchema : ZodType RawLead LeadSubmission :=
  fun input =>
    ap (ap (ap (ap (OK mkLead)
      (atKey "name" (nameSchema (raw_name input))))
      (atKey "email" (emailSchema (raw_email input))))
      (atKey "phone" (phoneSchema (raw_phone input))))
      (atKey "message" (messageSchema (raw_message input))).

(** The messages a string name produces. *)
Definition nameMessages (s : string) : list string :=
  if ((JsString.length s <? 1) || (100 <? JsString.length s))%nat
  then (when (JsString.length s <? 1)%nat "Name is required"
        ++ when (100 <? JsString.length s)%nat "Name is too long")%list
  else when (JsString.length (sanitizeInput s) <? 1)%nat "Name is required".

Definition emailMessages (e : string) : list string :=
  let t := JsString.trim e in
  (when (negb (emailRegex t)) "Please enter a valid email address"
   ++ when (255 <? JsString.length t)%nat "Email is too long"
   ++ when (JsString.hasLineBreak t) "Email cannot contain newlines")%list.

Definition messageMessages (s : string) : list string :=
  if ((JsString.length s <? 1) || (1000 <? JsString.length s))%nat
  then (when (JsString.length s <? 1)%nat "Message is required"
        ++ when (1000 <? JsString.length s)%nat "Message is too long")%list
  else (when (JsString.length (sanitizeInput s) <? 1)%nat "Message is required"
        ++ when (1000 <? JsString.length (sanitizeInput s))%nat "Message is too long")%list.

End WithLibraries.

(** The object with its phone replaced. *)
Definition withPhone (v : JsValue) (input : RawLead) : RawLead :=
  mkRaw (raw_name input) (raw_email input) v (raw_message input).

End Schema.

(* ===================================================================== *)
(** ** Reference instances of the two library functions *)
(* ===================================================================== *)

(** Executable stand-ins used to run the schema on concrete inputs: a tag
    stripper that agrees with DOMPurify (all tags disallowed) on plain text
    without ampersand and angle brackets and on text wrapped in formatting
    tags, and the e-mail expression of Zod 3: the address does not start with
    a dot and has no two dots in a row; the local part is made of letters,
    digits and the characters _ ' + - . and ends in a letter, a digit or one
    of _ + -; the domain is one or more labels (a letter or digit, then
    letters, digits and dashes) each followed by a dot, and a last label of two
    or more letters. *)
Module Reference.

Import Regex.

Fixpoint stripFrom (inTag : bool) (s : string) : string :=
  match s with
  | EmptyString => EmptyString
  | String c s' =>
      if inTag
      then (if Ascii.eqb c ">" then stripFrom false s' else stripFrom true s')
      else (if Ascii.eqb c "<" then stripFrom true s' else String c (stripFrom false s'))
  end.

Definition stripTags (s : string) : string := stripFrom false s.

Definition between (lo hi : nat) (c : ascii) : bool :=
  (lo <=? JsString.code c)%nat && (JsString.code c <=? hi)%nat.

Definition letter (c : ascii) : bool := between 65 90 c || between 97 122 c.
Definition alnum (c : ascii) : bool := letter c || between 48 57 c.
Definition oneOf (cs : string) (c : ascii) : bool :=
  JsString.includes cs (String c EmptyString).

Definition emailBody : regex :=
  Cat (Star (Cls (fun c => alnum c || oneOf "_'+-." c)))
  (Cat (Cls (fun c => alnum c || oneOf "_+-" c))
  (Cat (Chr "@")
  (Cat (Cat (Cat (Cls alnum) (Cat (Star (Cls (fun c => alnum c || oneOf "-" c))) (Chr ".")))
            (Star (Cat (Cls alnum) (Cat (Star (Cls (fun c => alnum c || oneOf "-" c))) (Chr ".")))))
  (Cat (Cls letter) (Cat (Cls letter) (Star (Cls letter))))))).

Definition emailFormat (s : string) : bool :=
  negb (JsString.startsWith "." s)
  && negb (JsString.includes s "..")
  && Regex.test emailBody s.

End Reference.

(* ===================================================================== *)
(** ** Sample inputs *)
(* ===================================================================== *)

Module Samples.

Import Zod Schema.

Definition johnDoe (name message : string) : RawLead :=
  mkRaw (JsString name) (JsString "john@example.com") JsUndefined (JsString message).

(** A name of 100 "A" with one space before and one after. *)
Definition paddedName : string := " " +:+ JsString.repeat "A" 100 +:+ " ".

(** An e-mail address followed by a line feed. *)
Definition emailThenLineFeed : string :=
  "john@example.com" +:+ String (ascii_of_nat 10) EmptyString.

End Samples.

(* ===================================================================== *)
(** ** The setup wizard: restoring the step, polling the setup status *)
(* ===================================================================== *)

Module Wizard.

Definition isDigit (c : ascii) : bool :=
  (48 <=? JsString.code c)%nat && (JsString.code c <=? 57)%nat.

Definition digitValue (c : ascii) : Z := Z.of_nat (JsString.code c - 48).

(** The longest prefix of decimal digits, read as a number; [None] when the
    prefix is empty. *)
Fixpoint digitsPrefix (s : string) (acc : option Z) : option Z :=
  match s with
  | EmptyString => acc
  | String c s' =>
      if isDigit c
      then digitsPrefix s' (Some (10 * default 0 acc + digitValue c)%Z)
      else acc
  end.

(** [parseInt(s, 10)]; [None] is [NaN].  Leading white space is skipped, one
    sign is read, then as many decimal digits as there are.  The result is the
    mathematical integer (JavaScript rounds it to a double, which does not
    move it across 1 or 9). *)
Definition parseInt (s : string) : option Z :=
  match JsString.trimStart s with
  | String "-" rest => Z.opp <$> digitsPrefix rest None
  | String "+" rest => digitsPrefix rest None
  | t => digitsPrefix t None
  end.

(** The initializer of the [step] state.  [saved] is what
    [safeLocalStorage.getItem(SETUP_STORAGE_KEY)] returned, [None] for
    [null]; [if (saved)] is false for [null] and for the empty string. *)
Definition initialStep (saved : option string) : Z :=
  match saved with
  | None => 1%Z
  | Some EmptyString => 1%Z
  | Some s =>
      match parseInt s with
      | Some savedStep =>
          if (1 <=? savedStep)%Z && (savedStep <=? 9)%Z then savedStep else 1%Z
      | None => 1%Z
      end
  end.

Record SetupStatus : Type := mkStatus {
  configured : bool;
  missing : list string;
  details : gmap string bool
}.

(** What [fetch("/api/v1/setup/status")] resolved to: the status code and the
    decoded body ([None] when [res.json()] rejects).  [res.ok] is the fetch
    standard's: a status from 200 to 299. *)
Record StatusResponse : Type := mkStatusResponse {
  status : Z;
  statusText : string;
  body : option SetupStatus
}.

Definition ok (res : StatusResponse) : bool :=
  (200 <=? status res)%Z && (status res <=? 299)%Z.

(** The component state the status query reads and writes: the current step,
    the [isRateLimited] flag, and the query cache, one entry of data for each
    query key [["setup-status", step]]. *)
Record State : Type := mkState {
  step : Z;
  isRateLimited : bool;
  cache : gmap Z SetupStatus
}.

(** [queryFn] of the setup-status query: the new value of [isRateLimited] and
    either the message of the error thrown or the status returned. *)
Definition queryFn (res : StatusResponse) (rateLimited : bool)
  : bool * (string + SetupStatus) :=
  if negb (ok res) then
    if (status res =? 429)%Z
    then (true, inr (mkStatus false [] ∅))
    else (rateLimited, inl ("Failed to check setup status: " +:+ statusText res))
  else
    match body res with
    | Some data => (false, inr data)
    | None => (false, inl "Unexpected end of JSON input")
    end.

(** [refetchInterval]: [None] is [false], no polling. *)
Definition refetchInterval (data : option SetupStatus) (currentStep : Z)
  (rateLimited : bool) : option Z :=
  match data with
  | Some d =>
      if configured d then None
      else if (currentStep =? 8)%Z && negb rateLimited then Some 5000%Z else None
  | None =>
      if (currentStep =? 8)%Z && negb rateLimited then Some 5000%Z else None
  end.

(** What happens to the wizard: a fetch of the query with key [key] completes
    with a response, or the step changes. *)
Inductive Event : Type :=
| Fetched : Z -> StatusResponse -> Event
| SetStep : Z -> Event.

Definition react (st : State) (ev : Event) : State :=
  match ev with
  | Fetched key res =>
      let (limited, result) := queryFn res (isRateLimited st) in
      match result with
      | inr data => mkState (step st) limited (<[key := data]> (cache st))
      | inl _ => mkState (step st) limited (cache st)
      end
  | SetStep n => mkState n (isRateLimited st) (cache st)
  end.

Definition run (st : State) (evs : list Event) : State := fold_left react evs st.

(** The polling interval in force in a state: [refetchInterval] on the data
    of the query whose key holds the current step. *)
Definition polling (st : State) : option Z :=
  refetchInterval (cache st !! step st) (step st) (isRateLimited st).

Definition mount (saved : option string) : State :=
  mkState (initialStep saved) false ∅.

(** An event that is not a status response with a status from 200 to 299. *)
Definition notSuccessful (ev : Event) : Prop :=
  match ev with
  | Fetched _ res => ok res = false
  | SetStep _ => True
  end.

Definition tooManyRequests : StatusResponse :=
  mkStatusResponse 429 "Too Many Requests" None.

Definition notYetConfigured : StatusResponse :=
  mkStatusResponse 200 "OK" (Some (mkStatus false ["oauth"] ∅)).

End Wizard.

(* ===================================================================== *)
(** ** The configuration fetch: useAppConfig *)
(* ===================================================================== *)

Module Config.

(** A decoded JSON value; an object is a finite map from keys to values. *)
#[warnings="-register-all"]
Inductive Json : Type :=
| JNull : Json
| JBool : bool -> Json
| JNum : Q -> Json
| JStr : string -> Json
| JArr : list Json -> Json
| JObj : gmap string Json -> Json.

(** [!v] *)
Definition falsy (v : option Json) : bool :=
  match v with
  | None => true
  | Some JNull => true
  | Some (JBool b) => negb b
  | Some (JNum q) => (Qnum q =? 0)%Z
  | Some (JStr s) => match s with EmptyString => true | _ => false end
  | Some (JArr _) => false
  | Some (JObj _) => false
  end.

(** [typeof v === 'object'] *)
Definition typeofObject (v : Json) : bool :=
  match v with
  | JNull | JArr _ | JObj _ => true
  | _ => false
  end.

(** [v.key] on a decoded JSON value; [None] is [undefined]. *)
Definition prop (v : Json) (key : string) : option Json :=
  match v with
  | JObj m => m !! key
  | _ => None
  end.

Fixpoint indexed (i : nat) (l : list Json) : list (string * Json) :=
  match l with
  | [] => []
  | v :: l' => (pretty i, v) :: indexed (S i) l'
  end.

(** The own enumerable properties [{ ...v }] copies. *)
Definition ownProps (v : Json) : gmap string Json :=
  match v with
  | JObj m => m
  | JArr l => list_to_map (indexed 0 l)
  | _ => ∅
  end.

(** [{ ...a, ...b }]: the keys of [b] win. *)
Definition spread (a : gmap string Json) (b : Json) : gmap string Json :=
  ownProps b ∪ a.

Definition obj (kvs : list (string * Json)) : Json := JObj (list_to_map kvs).

Section Defaults.

(** [new Date().getFullYear()], as printed. *)
Variable fullYear : string.

Definition DEFAULT_CONFIG : gmap string Json :=
  list_to_map
    [ ("branding", obj
         [ ("companyName", JStr "SmartSheetConnect");
           ("logo", JStr "/assets/SmartSheetConnect.png");
           ("primaryColor", JStr "#2563eb") ]);
      ("content", obj
         [ ("hero", obj
              [ ("title", JStr "SmartSheetConnect");
                ("description", JStr "Automated lead capture that logs to Google Sheets and sends notifications");
                ("ctaText", JStr "Get Started");
                ("secondaryCtaText", JStr "Learn More");
                ("benefits", JArr []) ]);
           ("form", obj
              [ ("title", JStr "Get in Touch");
                ("description", JStr "Fill out the form below and we'll get back to you as soon as possible");
                ("submitText", JStr "Send Message") ]) ]);
      ("header", obj
         [ ("navigation", JArr []); ("ctaText", JStr "Get Started") ]);
      ("footer", obj
         [ ("description", JStr "Professional lead capture automation for businesses that value efficiency and never missing an opportunity.");
           ("socialLinks", obj []);
           ("quickLinks", JArr []);
           ("resources", JArr []);
           ("copyright",
             JStr (String (ascii_of_nat 169) (" " +:+ fullYear +:+ " SmartSheetConnect. All rights reserved."))) ]) ].

(** A thrown value: whether it is an [Error], its [name] and [message]. *)
Record JsError : Type := mkError {
  isError : bool;
  errName : string;
  errMessage : string
}.

Definition newError (msg : string) : JsError := mkError true "Error" msg.

Inductive JsonOutcome : Type :=
| JsonRejects : JsError -> JsonOutcome
| JsonResolves : Json -> JsonOutcome.

(** A response: [res.ok] is a status from 200 to 299. *)
Record Response : Type := mkResponse {
  status : Z;
  statusText : string;
  json : JsonOutcome
}.

Definition ok (res : Response) : bool :=
  (200 <=? status res)%Z && (status res <=? 299)%Z.

Inductive FetchOutcome : Type :=
| FetchRejects : JsError -> FetchOutcome
| FetchResolves : Response -> FetchOutcome.

(** Everything one run of the query function observes: how [fetch] settled,
    and the value of [signal?.aborted || controller.signal.aborted] at the
    two places that read it (after the fetch, and in the [catch] block). *)
Record Attempt : Type := mkAttempt {
  fetched : FetchOutcome;
  abortedAfterFetch : bool;
  abortedInCatch : bool
}.

(** A computation that returns ([inr]) or throws ([inl]). *)
Definition Throws (A : Type) : Type := JsError + A.
Definition ret {A} (v : A) : Throws A := inr v.
Definition throw {A} (e : JsError) : Throws A := inl e.

(** The [try] block of the query function. *)
Definition tryBlock (a : Attempt) : Throws Json :=
  match fetched a with
  | FetchRejects e => throw e
  | FetchResolves res =>
      if abortedAfterFetch a then throw (newError "Request was cancelled")
      else if negb (ok res) then
        if (500 <=? status res)%Z then ret (JObj DEFAULT_CONFIG)
        else throw (newError ("Failed to load configuration: "
                              +:+ pretty (status res) +:+ " " +:+ statusText res))
      else
        match json res with
        | JsonRejects e => throw e
        | JsonResolves data =>
            if falsy (Some data) || negb (typeofObject data)
            then ret (JObj DEFAULT_CONFIG)
            else if falsy (prop data "branding") || falsy (prop data "content")
            then ret (JObj (spread DEFAULT_CONFIG data))
            else ret data
        end
  end.

(** The [catch] block; the branches that only log fall through to the final
    [return DEFAULT_CONFIG]. *)
Definition catchBlock (error : JsError) (a : Attempt) : Throws Json :=
  if isError error then
    if String.eqb (errName error) "AbortError" && abortedInCatch a
    then ret (JObj DEFAULT_CONFIG)
    else if String.eqb (errName error) "AbortError"
    then ret (JObj DEFAULT_CONFIG)
    else if JsString.includes (errMessage error) "fetch"
            || JsString.includes (errMessage error) "cancelled"
    then ret (JObj DEFAULT_CONFIG)
    else ret (JObj DEFAULT_CONFIG)
  else ret (JObj DEFAULT_CONFIG).

(** [queryFn]: [try { ... } catch (error) { ... }]. *)
Definition queryFn (a : Attempt) : Throws Json :=
  match tryBlock a with
  | inr v => ret v
  | inl error => catchBlock error a
  end.

(** The [retry] option. *)
Definition retry (failureCount : nat) (error : JsError) : bool :=
  if (failureCount <? 1)%nat then
    if isError error then
      let errorMessage := JsString.toLowerCase (errMessage error) in
      if JsString.includes errorMessage "network"
         || JsString.includes errorMessage "timeout"
         || JsString.includes errorMessage "500"
         || JsString.includes errorMessage "503"
         || JsString.includes errorMessage "502"
      then true else false
    else false
  else false.

(** The [retryDelay] option: [Math.min(1000 * 2 ** attemptIndex, 5000)]. *)
Definition retryDelay (attemptIndex : nat) : Z :=
  Z.min (1000 * 2 ^ Z.of_nat attemptIndex) 5000.

(** TanStack Query's retryer around a query function: [attempt n] is how the
    [n]-th call settles.  A failure is retried, after [retryDelay], when
    [retry failureCount error] holds, and [failureCount] then goes up by one.
    The result is the delays slept, in order, and how the query settled;
    [None] when [fuel] calls were not enough. *)
Fixpoint retryer {A} (fuel : nat) (attempt : nat -> Throws A)
  (failureCount : nat) (delays : list Z) : option (list Z * Throws A) :=
  match fuel with
  | O => None
  | S fuel' =>
      match attempt failureCount with
      | inr v => Some (delays, inr v)
      | inl error =>
          if retry failureCount error
          then retryer fuel' attempt (S failureCount)
                 (delays ++ [retryDelay failureCount])
          else Some (delays, inl error)
      end
  end.

(** [useAppConfig]'s query, run on the attempts [world 0], [world 1], ... *)
Definition useAppConfig (fuel : nat) (world : nat -> Attempt)
  : option (list Z * Throws Json) :=
  retryer fuel (fun n => queryFn (world n)) 0 [].

(** A fetch that fails with a network error. *)
Definition networkFailure : Attempt :=
  mkAttempt (FetchRejects (mkError true "TypeError" "Failed to fetch")) false false.

(** A response whose body lacks the content. *)
Definition brandingOnly : gmap string Json :=
  {[ "branding" := JObj {[ "companyName" := JStr "Acme" ]} ]}.

(** A response whose body holds a null branding and no content. *)
Definition nullBranding : gmap string Json := {[ "branding" := JNull ]}.

(** A 404 response. *)
Definition notFound : Attempt :=
  mkAttempt (FetchResolves (mkResponse 404 "Not Found" (JsonRejects (newError "no body"))))
    false false.

End Defaults.

End Config.

(* ===================================================================== *)
(** ** Counting the digits of a phone number *)
(* ===================================================================== *)

Module Phone.

Definition isDigit (c : ascii) : bool :=
  (48 <=? JsString.code c)%nat && (JsString.code c <=? 57)%nat.

Fixpoint countDigits (s : string) : nat :=
  match s with
  | EmptyString => 0
  | String c s' => (if isDigit c then 1 else 0) + countDigits s'
  end.

End Phone.

(* ===================================================================== *)
(** ** client/src/lib/validation.ts *)
(* ===================================================================== *)

Module Validation.

Import Regex.

(** The keys of [FIELD_MAX_LENGTHS]: the type of the [field] argument. *)
Inductive Field : Type :=
| companyName | logo | primaryColor | secondaryColor | siteUrl
| heroTitle | heroDescription | heroCtaText | heroSecondaryCtaText
| heroTertiaryCtaText
| formTitle | formDescription | formSubmitText
| headerCtaText | footerDescription | navigationLabel
| pageTitle | metaDescription | ogTitle | ogDescription | keywords
| googleAnalyticsId | googleTagManagerId | facebookPixelId
| linkedinInsightTag | customAnalyticsScript
| socialLink
| url.

Definition FIELD_MAX_LENGTHS (field : Field) : Z :=
  match field with
  | companyName => 255 | logo => 500 | primaryColor => 20
  | secondaryColor => 20 | siteUrl => 500
  | heroTitle => 200 | heroDescription => 1000 | heroCtaText => 100
  | heroSecondaryCtaText => 100 | heroTertiaryCtaText => 100
  | formTitle => 200 | formDescription => 1000 | formSubmitText => 100
  | headerCtaText => 100 | footerDescription => 1000 | navigationLabel => 50
  | pageTitle => 100 | metaDescription => 300 | ogTitle => 100
  | ogDescription => 300 | keywords => 200
  | googleAnalyticsId => 50 | googleTagManagerId => 50
  | facebookPixelId => 50 | linkedinInsightTag => 50
  | customAnalyticsScript => 5000
  | socialLink => 500
  | url => 500
  end%Z.

(** [value.length] as a number. *)
Definition lengthOf (value : string) : Z := Z.of_nat (JsString.length value).

Definition exceedsMaxLength (field : Field) (value : string) : bool :=
  let maxLength := FIELD_MAX_LENGTHS field in
  (maxLength <? lengthOf value)%Z.

Definition getRemainingChars (field : Field) (value : string) : Z :=
  let maxLength := FIELD_MAX_LENGTHS field in
  Z.max 0 (maxLength - lengthOf value).

(** [getCharCountText].  Numbers are printed in decimal.  The test
    [remaining < max * 0.1] is written [10 * remaining < max]: for each
    maximum of the table the double [max * 0.1] is exactly a tenth of it. *)
Definition getCharCountText (field : Field) (value : string) : string :=
  let current := lengthOf value in
  let max := FIELD_MAX_LENGTHS field in
  let remaining := getRemainingChars field value in
  let isWarning := (10 * remaining <? max)%Z in
  let isError := (remaining <? 0)%Z in
  if isError then
    pretty current +:+ "/" +:+ pretty max
      +:+ " (" +:+ pretty (Z.abs remaining) +:+ " over limit)"
  else if isWarning then
    pretty current +:+ "/" +:+ pretty max
      +:+ " (" +:+ pretty remaining +:+ " remaining)"
  else pretty current +:+ "/" +:+ pretty max.

(** The class [[0-9A-Fa-f]]. *)
Definition isHexDigit (c : ascii) : bool :=
  let n := JsString.code c in
  ((48 <=? n)%nat && (n <=? 57)%nat)
  || ((65 <=? n)%nat && (n <=? 70)%nat)
  || ((97 <=? n)%nat && (n <=? 102)%nat).

Definition hexDigit : regex := Cls isHexDigit.

Fixpoint allHexDigits (s : string) : bool :=
  match s with
  | EmptyString => true
  | String c s' => isHexDigit c && allHexDigits s'
  end.

(** [/^#[0-9A-Fa-f]{6}$/.test(color)] *)
Definition isValidHexColor (color : string) : bool :=
  Regex.test (Cat (Chr "#") (Times hexDigit 6)) color.

(** The result of the two helpers below: [suggestion] is absent on success. *)
Record Feedback : Type := mkFeedback { valid : bool; suggestion : option string }.

Definition validateTitle (value : string) : Feedback :=
  match value with
  | EmptyString => mkFeedback false (Some "Title is required")
  | _ =>
      if (lengthOf value <? 5)%Z
      then mkFeedback false (Some "Title should be at least 5 characters")
      else if (60 <? lengthOf value)%Z
      then mkFeedback false (Some "Title should be under 60 characters for best display")
      else mkFeedback true None
  end.

Definition validateDescription (value : string) : Feedback :=
  match value with
  | EmptyString => mkFeedback false (Some "Description is required")
  | _ =>
      if (lengthOf value <? 10)%Z
      then mkFeedback false (Some "Description should be at least 10 characters")
      else if (300 <? lengthOf value)%Z
      then mkFeedback false (Some "Description should be under 300 characters")
      else mkFeedback true None
  end.

End Validation.

(* ===================================================================== *)
(** ** client/src/App.tsx: the colour test of the theme *)
(* ===================================================================== *)

Module App.

Import Regex.

(** [/^#([A-Fa-f0-9]{6}|[A-Fa-f0-9]{3})$/.test(color)] *)
Definition isValidHexColor (color : string) : bool :=
  Regex.test
    (Cat (Chr "#") (Alt (Times Validation.hexDigit 6) (Times Validation.hexDigit 3)))
    color.

End App.

(* ===================================================================== *)
(** ** The forms: what an API error shows *)
(* ===================================================================== *)

Module Forms.

(** An [ApiError]: its message and, when set, its HTTP status. *)
Record ApiError : Type := mkApiError { message : string; status : option Z }.

Definition statusIs (error : ApiError) (code : Z) : bool :=
  match status error with
  | Some s => (s =? code)%Z
  | None => false
  end.

(** [a || b] on strings. *)
Definition orElse (a b : string) : string :=
  match a with
  | EmptyString => b
  | _ => a
  end.

Definition setupIncomplete (error : ApiError) : bool :=
  statusIs error 412
  || JsString.includes (message error) "Setup incomplete"
  || JsString.includes (message error) "SETUP_INCOMPLETE".

(** [getErrorMessage] of the embeddable form. *)
Definition getErrorMessage (error : ApiError) : string :=
  if setupIncomplete error
  then "Setup incomplete. Please complete the setup wizard to enable form submissions."
  else orElse (message error) "Failed to send message. Please try again.".

(** [onError] of the demo form's mutation: whether the CSRF token is fetched
    again, and the message set on the form. *)
Definition refreshesCsrfToken (error : ApiError) : bool :=
  JsString.includes (message error) "CSRF" || statusIs error 403.

Definition rootMessage (error : ApiError) : string :=
  if setupIncomplete error then
    "Setup incomplete. Please complete the setup wizard at /setup to enable form submissions."
  else if JsString.includes (message error) "Google authentication not configured"
          || JsString.includes (message error) "not configured" then
    "Google authentication not configured. Please complete setup at /setup"
  else if JsString.includes (message error) "OAuth"
          || JsString.includes (message error) "Google authentication"
          || JsString.includes (message error) "refresh token"
          || JsString.includes (message error) "invalid_grant" then
    "Google authentication failed. Please go to /setup and re-authenticate with Google (Step 2)."
  else orElse (message error) "Failed to submit form. Please try again.".

End Forms.

(* ===================================================================== *)
(** ** client/pages/Setup/utils/localStorage: safeLocalStorage *)
(* ===================================================================== *)

Module Storage.

Definition SETUP_STORAGE_KEY : string := "smartsheetconnect-setup-progress".

(** What a call into the browser may throw: whether it is a [DOMException],
    and its [name]. *)
Record Thrown : Type := mkThrown { isDOMException : bool; name : string }.

(** The browser as the wrapper sees it: whether [Storage] is defined and
    [window.localStorage] is truthy, the items stored, and the faults the
    coming calls into the browser raise, in order ([None]: the call goes
    through; past the end of the list every call goes through). *)
Record Browser : Type := mkBrowser {
  available : bool;
  items : gmap string string;
  faults : list (option Thrown)
}.

(** A computation on the browser that returns ([inr]) or throws ([inl]). *)
Definition M (A : Type) : Type := Browser -> (Thrown + A) * Browser.

Definition ret {A} (v : A) : M A := fun b => (inr v, b).

Definition bind {A B} (m : M A) (k : A -> M B) : M B :=
  fun b =>
    match m b with
    | (inr v, b') => k v b'
    | (inl e, b') => (inl e, b')
    end.

(** [try { m } catch (error) { handler error }] *)
Definition tryCatch {A} (m : M A) (handler : Thrown -> M A) : M A :=
  fun b =>
    match m b with
    | (inr v, b') => (inr v, b')
    | (inl e, b') => handler e b'
    end.

(** One call into the browser: it raises the fault planned for it, or takes
    effect. *)
Definition call {A} (effect : Browser -> A * Browser) : M A :=
  fun b =>
    match faults b with
    | Some e :: rest => (inl e, mkBrowser (available b) (items b) rest)
    | None :: rest =>
        let (v, b') := effect (mkBrowser (available b) (items b) rest) in (inr v, b')
    | [] => let (v, b') := effect b in (inr v, b')
    end.

(** [typeof Storage === 'undefined' || !window.localStorage] *)
Definition storageMissing : M bool :=
  call (fun b => (negb (available b), b)).

Definition localStorage_getItem (key : string) : M (option string) :=
  call (fun b => (items b !! key, b)).

Definition localStorage_setItem (key value : string) : M unit :=
  call (fun b => (tt, mkBrowser (available b) (<[key := value]> (items b)) (faults b))).

Definition localStorage_removeItem (key : string) : M unit :=
  call (fun b => (tt, mkBrowser (available b) (delete key (items b)) (faults b))).

Definition isQuotaExceeded (error : Thrown) : bool :=
  String.eqb (name error) "QuotaExceededError".

(** [safeLocalStorage.getItem]; [None] is [null]. *)
Definition getItem (key : string) : M (option string) :=
  tryCatch
    (bind storageMissing (fun missing =>
       if missing then ret None else localStorage_getItem key))
    (fun error =>
       if isDOMException error then
         if isQuotaExceeded error then
           tryCatch
             (bind (localStorage_removeItem key) (fun _ => ret None))
             (fun _ => ret None)
         else ret None
       else ret None).

(** [safeLocalStorage.setItem] *)
Definition setItem (key value : string) : M bool :=
  tryCatch
    (bind storageMissing (fun missing =>
       if missing then ret false
       else bind (localStorage_setItem key value) (fun _ => ret true)))
    (fun error =>
       if isDOMException error then
         if isQuotaExceeded error then
           tryCatch
             (bind (localStorage_removeItem key) (fun _ =>
              bind (localStorage_setItem key value) (fun _ => ret true)))
             (fun _ => ret false)
         else ret false
       else ret false).

(** [safeLocalStorage.removeItem] *)
Definition removeItem (key : string) : M bool :=
  tryCatch
    (bind storageMissing (fun missing =>
       if missing then ret false
       else bind (localStorage_removeItem key) (fun _ => ret true)))
    (fun _ => ret false).

(** A browser with one stored item whose first write hits the quota. *)
Definition fullOnce : Browser :=
  mkBrowser true {[ "theme" := "dark" ]}
    [None; Some (mkThrown true "QuotaExceededError")].

(** A browser whose storage works and raises nothing. *)
Definition healthy (b : Browser) : Prop := available b = true /\ faults b = [].

(** Unfolds the wrapper and walks through the faults of the calls it makes. *)
Ltac walk :=
  unfold getItem, setItem, removeItem, tryCatch, bind, ret, storageMissing,
    localStorage_getItem, localStorage_setItem, localStorage_removeItem, call;
  repeat (cbn [faults items available fst snd negb];
          match goal with
          | |- context [match faults ?b with _ => _ end] =>
              let e := fresh "e" in let rest := fresh "rest" in
              destruct (faults b) as [|[e|] rest]
          | |- context [match ?l with [] => _ | _ :: _ => _ end] =>
              let e := fresh "e" in let rest := fresh "rest" in
              destruct l as [|[e|] rest]
          | |- context [if negb (available ?b) then _ else _] => destruct (available b)
          | |- context [if isDOMException ?e then _ else _] => destruct (isDOMException e)
          | |- context [if isQuotaExceeded ?e then _ else _] => destruct (isQuotaExceeded e)
          end).

End Storage.

(* ===================================================================== *)
(** ** The setup wizard: moving between the steps, saving and restoring *)
(* ===================================================================== *)

Module WizardSteps.


(** The two pieces of component state the steps depend on: [step] and
    [notificationPreferences.wantsSlack]. *)
Record Progress : Type := mkProgress { step : Z; wantsSlack : bool }.

Definition TOTAL_STEPS (p : Progress) : Z := if wantsSlack p then 10%Z else 9%Z.

(** The panels of the card. *)
Inductive Panel : Type :=
| Welcome | Branding | Content | HeaderFooter | Notifications
| GoogleSetup | Credentials | OAuth
| SlackSetup | SetupCompleteNotice | Completion.

Definition shown (b : bool) (panel : Panel) : list Panel := if b then [panel] else [].

(** What the card renders (when the wizard is not replaced by the card shown
    for a configured setup): one conditional per step, the step-9 block
    choosing between the Slack form and the notice, and the completion
    component on step [wantsSlack ? 10 : 9]. *)
Definition panels (p : Progress) : list Panel :=
  (shown (step p =? 1)%Z Welcome
   ++ shown (step p =? 2)%Z Branding
   ++ shown (step p =? 3)%Z Content
   ++ shown (step p =? 4)%Z HeaderFooter
   ++ shown (step p =? 5)%Z Notifications
   ++ shown (step p =? 6)%Z GoogleSetup
   ++ shown (step p =? 7)%Z Credentials
   ++ shown (step p =? 8)%Z OAuth
   ++ shown (step p =? 9)%Z (if wantsSlack p then SlackSetup else SetupCompleteNotice)
   ++ shown (step p =? (if wantsSlack p then 10 else 9))%Z Completion)%list.


(** The component state on mount: the step restored from storage, and the
    notification preferences at their defaults. *)
Definition restoreProgress : Storage.M Progress :=
  Storage.bind (Storage.getItem Storage.SETUP_STORAGE_KEY) (fun saved =>
    Storage.ret (mkProgress (Wizard.initialStep saved) false)).

(** The effect that clears the saved step once the setup is configured. *)
Definition clearProgress : Storage.M bool :=
  Storage.removeItem Storage.SETUP_STORAGE_KEY.

End WizardSteps.

(* ===================================================================== *)
(** * Properties *)
(* ===================================================================== *)

(** ** Strings *)

Module JsStringFacts.

Import JsString.

Lemma append_empty_r (s : string) : s +:+ EmptyString = s.
Proof. induction s as [|c s IH]; simpl; [reflexivity | now rewrite IH]. Qed.

Lemma append_assoc (a b c : string) : (a +:+ b) +:+ c = a +:+ (b +:+ c).
Proof. induction a as [|x a IH]; simpl; [reflexivity | now rewrite IH]. Qed.

Lemma length_append (a b : string) :
  length (a +:+ b) = (length a + length b)%nat.
Proof. unfold length. induction a as [|x a IH]; simpl; [reflexivity | now rewrite IH]. Qed.

Lemma length_zero (s : string) : length s = 0%nat -> s = EmptyString.
Proof. destruct s; [reflexivity | discriminate]. Qed.

Lemma length_repeat_char (c : ascii) (n : nat) :
  length (repeat (String c EmptyString) n) = n.
Proof. unfold length. induction n as [|n IH]; simpl; [reflexivity | now rewrite IH]. Qed.

Lemma trimStart_length (s : string) : (length (trimStart s) <= length s)%nat.
Proof.
  unfold length. induction s as [|c s IH]; simpl; [lia|].
  destruct (isWhiteSpace c); simpl; lia.
Qed.

Lemma trimEnd_length (s : string) : (length (trimEnd s) <= length s)%nat.
Proof.
  unfold length. induction s as [|c s IH]; simpl; [lia|].
  destruct (trimEnd s); [destruct (isWhiteSpace c)|]; simpl in *; lia.
Qed.

Lemma trim_length (s : string) : (length (trim s) <= length s)%nat.
Proof.
  unfold trim. pose proof (trimEnd_length (trimStart s)).
  pose proof (trimStart_length s). lia.
Qed.

Lemma trimStart_frontTrimmed (s : string) : frontTrimmed (trimStart s).
Proof.
  induction s as [|c s IH]; simpl; [exact I|].
  destruct (isWhiteSpace c) eqn:E; [exact IH | exact E].
Qed.

Lemma trimStart_fixed (s : string) : frontTrimmed s -> trimStart s = s.
Proof. destruct s as [|c s]; simpl; [reflexivity|]. now intros ->. Qed.

Lemma trimEnd_frontTrimmed (s : string) : frontTrimmed s -> frontTrimmed (trimEnd s).
Proof.
  destruct s as [|c s]; simpl; [trivial|]. intros E.
  destruct (trimEnd s); [rewrite E|]; simpl; exact E.
Qed.

Lemma trimEnd_idem (s : string) : trimEnd (trimEnd s) = trimEnd s.
Proof.
  induction s as [|c s IH]; simpl; [reflexivity|].
  destruct (trimEnd s) as [|d t] eqn:E.
  - destruct (isWhiteSpace c) eqn:W; simpl; [reflexivity | now rewrite W].
  - simpl in *. now rewrite IH.
Qed.

Lemma trim_idem (s : string) : trim (trim s) = trim s.
Proof.
  unfold trim.
  rewrite (trimStart_fixed (trimEnd (trimStart s))).
  - apply trimEnd_idem.
  - apply trimEnd_frontTrimmed, trimStart_frontTrimmed.
Qed.




Lemma toLowerCase_length (s : string) : length (toLowerCase s) = length s.
Proof. unfold length. induction s as [|c s IH]; simpl; [reflexivity | now rewrite IH]. Qed.




Lemma hasLineBreak_false_iff (s : string) :
  hasLineBreak s = false <->
  forall a c b, s = a +:+ String c b -> isLineBreak c = false.
Proof.
  induction s as [|x s IH]; simpl.
  - split; [|reflexivity]. intros _ [|] ? ? ?; discriminate.
  - rewrite orb_false_iff, IH. split.
    + intros [Hx Hs] [|y a] c b E; simpl in E; injection E as -> ->; [exact Hx|].
      eapply Hs; reflexivity.
    + intros H. split.
      * apply (H EmptyString x s); reflexivity.
      * intros a c b ->. apply (H (String x a) c b); reflexivity.
Qed.

End JsStringFacts.

(** ** The matcher decides the language of an expression *)

Module RegexFacts.

Import Regex.

Lemma Matches_Eps (s : string) : Matches Eps s <-> s = EmptyString.
Proof. split; [now inversion 1 | intros ->; constructor]. Qed.

Lemma Matches_Void (s : string) : Matches Void s <-> False.
Proof. split; [inversion 1 | tauto]. Qed.

Lemma Matches_Cls (p : ascii -> bool) (s : string) :
  Matches (Cls p) s <-> exists c, s = String c EmptyString /\ p c = true.
Proof.
  split.
  - inversion 1; subst; eauto.
  - intros (c & -> & Hc). now constructor.
Qed.

Lemma Matches_Cat (r1 r2 : regex) (s : string) :
  Matches (Cat r1 r2) s <->
  exists s1 s2, s = s1 +:+ s2 /\ Matches r1 s1 /\ Matches r2 s2.
Proof.
  split.
  - inversion 1; subst; eauto.
  - intros (s1 & s2 & -> & H1 & H2). now constructor.
Qed.

Lemma Matches_Alt (r1 r2 : regex) (s : string) :
  Matches (Alt r1 r2) s <-> Matches r1 s \/ Matches r2 s.
Proof.
  split.
  - inversion 1; subst; auto.
  - intros [H|H]; [now apply MAltL | now apply MAltR].
Qed.

Lemma append_empty (a b : string) :
  a +:+ b = EmptyString -> a = EmptyString /\ b = EmptyString.
Proof. destruct a; simpl; [auto | discriminate]. Qed.

Lemma nullable_Matches (r : regex) : nullable r = true <-> Matches r EmptyString.
Proof.
  induction r as [| |p|r1 IH1 r2 IH2|r1 IH1 r2 IH2|r IH]; simpl.
  - split; [constructor | reflexivity].
  - rewrite Matches_Void. split; [discriminate | tauto].
  - rewrite Matches_Cls. split; [discriminate|]. intros (c & E & _). discriminate.
  - rewrite andb_true_iff, IH1, IH2, Matches_Cat. split.
    + intros [H1 H2]. exists EmptyString, EmptyString. auto.
    + intros (s1 & s2 & E & H1 & H2). symmetry in E.
      apply append_empty in E as [-> ->]. auto.
  - now rewrite orb_true_iff, IH1, IH2, Matches_Alt.
  - split; [constructor | reflexivity].
Qed.

Lemma Matches_Star_cons (r : regex) (c : ascii) (s : string) :
  Matches (Star r) (String c s) ->
  exists s1 s2, s = s1 +:+ s2 /\ Matches r (String c s1) /\ Matches (Star r) s2.
Proof.
  intros H. remember (Star r) as r' eqn:Er. remember (String c s) as t eqn:Et.
  revert s Et.
  induction H as [|p d Hd|q1 q2 t1 t2 _ _ _ _|q1 q2 t _ _|q1 q2 t _ _|q|q t1 t2 H1 _ H2 IH2];
    intros s Et; try discriminate.
  injection Er as ->. destruct t1 as [|d t1]; simpl in Et.
  - apply IH2; [reflexivity | exact Et].
  - injection Et as -> <-. eauto.
Qed.

Lemma deriv_Matches (c : ascii) (r : regex) :
  forall s, Matches (deriv c r) s <-> Matches r (String c s).
Proof.
  induction r as [| |p|r1 IH1 r2 IH2|r1 IH1 r2 IH2|r IH]; intros s; simpl.
  - rewrite Matches_Void, Matches_Eps. split; [tauto | discriminate].
  - now rewrite !Matches_Void.
  - rewrite Matches_Cls. destruct (p c) eqn:Hc.
    + rewrite Matches_Eps. split.
      * intros ->. eauto.
      * intros (d & E & _). now injection E.
    + rewrite Matches_Void. split; [tauto|].
      intros (d & E & Hd). injection E as -> _. congruence.
  - rewrite (Matches_Cat r1 r2). destruct (nullable r1) eqn:N.
    + rewrite Matches_Alt, Matches_Cat. split.
      * intros [(s1 & s2 & -> & H1 & H2) | H2].
        -- exists (String c s1), s2. rewrite <- IH1. auto.
        -- exists EmptyString, (String c s). rewrite <- IH2, <- nullable_Matches. auto.
      * intros ([|d s1] & s2 & E & H1 & H2); simpl in E.
        -- right. subst s2. now apply IH2.
        -- left. injection E as <- ->. exists s1, s2. rewrite IH1. auto.
    + rewrite Matches_Cat. split.
      * intros (s1 & s2 & -> & H1 & H2).
        exists (String c s1), s2. rewrite <- IH1. auto.
      * intros ([|d s1] & s2 & E & H1 & H2); simpl in E.
        -- apply nullable_Matches in H1. congruence.
        -- injection E as <- ->. exists s1, s2. rewrite IH1. auto.
  - now rewrite !Matches_Alt, IH1, IH2.
  - rewrite Matches_Cat. split.
    + intros (s1 & s2 & -> & H1 & H2). apply IH in H1.
      change (String c (s1 +:+ s2)) with (String c s1 +:+ s2). now constructor.
    + intros H. apply Matches_Star_cons in H as (s1 & s2 & -> & H1 & H2).
      exists s1, s2. rewrite IH. auto.
Qed.

Lemma test_Matches (r : regex) (s : string) : test r s = true <-> Matches r s.
Proof.
  revert r. induction s as [|c s IH]; intros r; simpl.
  - apply nullable_Matches.
  - now rewrite IH, deriv_Matches.
Qed.

End RegexFacts.

(** ** [phoneRegex] matches exactly the loose phone pattern *)

Module PhoneFacts.

Import Regex RegexFacts Schema JsStringFacts.

Lemma Matches_Chr (c : ascii) (s : string) :
  Matches (Chr c) s <-> s = String c EmptyString.
Proof.
  unfold Chr. rewrite Matches_Cls. split.
  - intros (d & -> & E). apply Ascii.eqb_eq in E. now subst.
  - intros ->. exists c. split; [reflexivity | apply Ascii.eqb_refl].
Qed.

Lemma Matches_Opt (r : regex) (s : string) :
  Matches (Opt r) s <-> Matches r s \/ s = EmptyString.
Proof. unfold Opt. now rewrite Matches_Alt, Matches_Eps. Qed.

Lemma Matches_Opt_Chr (c : ascii) (s : string) :
  Matches (Opt (Chr c)) s <-> optionalChar c s.
Proof. unfold optionalChar. rewrite Matches_Opt, Matches_Chr. tauto. Qed.

Lemma Matches_Opt_separator (s : string) :
  Matches (Opt separator) s <-> optionalSeparator s.
Proof.
  unfold optionalSeparator, separator. rewrite Matches_Opt, Matches_Cls.
  split.
  - intros [(c & -> & H) | ->]; [right | now left].
    exists c. split; [reflexivity|].
    apply orb_true_iff in H as [H|H]; [apply orb_true_iff in H as [H|H]|].
    + left. now apply Ascii.eqb_eq.
    + right. now left.
    + right. right. now apply Ascii.eqb_eq.
  - intros [-> | (c & -> & H)]; [now right | left].
    exists c. split; [reflexivity|].
    destruct H as [-> | [H | ->]]; [reflexivity | | reflexivity].
    rewrite H. now rewrite orb_true_r.
Qed.

Lemma Matches_digit (s : string) :
  Matches digit s <-> allDigits s = true /\ JsString.length s = 1%nat.
Proof.
  unfold digit. rewrite Matches_Cls. split.
  - intros (c & -> & H). cbn [allDigits]. rewrite H. auto.
  - intros [H L]. destruct s as [|c [|d s]]; try discriminate.
    exists c. split; [reflexivity|]. cbn [allDigits] in H. now rewrite andb_true_r in H.
Qed.

Lemma allDigits_append (a b : string) :
  allDigits (a +:+ b) = allDigits a && allDigits b.
Proof.
  induction a as [|c a IH]; cbn [allDigits String.append]; [reflexivity|].
  now rewrite IH, andb_assoc.
Qed.

Lemma split_at (n : nat) (s : string) :
  (n <= JsString.length s)%nat ->
  exists a b, s = a +:+ b /\ JsString.length a = n.
Proof.
  revert s. induction n as [|n IH]; intros s L.
  - exists EmptyString, s. auto.
  - destruct s as [|c s]; [simpl in L; lia|].
    destruct (IH s) as (a & b & -> & La); [unfold JsString.length in *; simpl in L; lia|].
    exists (String c a), b. split; [reflexivity|].
    unfold JsString.length in *. simpl. now rewrite La.
Qed.

Lemma Matches_Times_digit (n : nat) (s : string) :
  Matches (Times digit n) s <-> allDigits s = true /\ JsString.length s = n.
Proof.
  revert s. induction n as [|n IH]; intros s; simpl.
  - rewrite Matches_Eps. split.
    + intros ->. auto.
    + intros [_ L]. now apply length_zero.
  - rewrite Matches_Cat. split.
    + intros (a & b & -> & Ha & Hb). apply Matches_digit in Ha as [Da La].
      apply IH in Hb as [Db Lb].
      rewrite allDigits_append, length_append, Da, Db, La, Lb. auto.
    + intros [D L]. destruct s as [|c s]; [discriminate|].
      exists (String c EmptyString), s. split; [reflexivity|].
      cbn [allDigits] in D. apply andb_true_iff in D as [Dc Ds].
      split.
      * apply Matches_digit. cbn [allDigits]. rewrite Dc. auto.
      * apply IH. split; [exact Ds|]. unfold JsString.length in *. simpl in L. lia.
Qed.

Lemma Matches_AtMost_digit (n : nat) (s : string) :
  Matches (AtMost digit n) s <-> allDigits s = true /\ (JsString.length s <= n)%nat.
Proof.
  revert s. induction n as [|n IH]; intros s; simpl.
  - rewrite Matches_Eps. split.
    + intros ->. simpl. auto.
    + intros [_ L]. apply length_zero. lia.
  - rewrite Matches_Opt, Matches_Cat. split.
    + intros [(a & b & -> & Ha & Hb) | ->]; [|simpl; split; [reflexivity | unfold JsString.length; simpl; lia]].
      apply Matches_digit in Ha as [Da La]. apply IH in Hb as [Db Lb].
      rewrite allDigits_append, length_append, Da, Db, La. split; [reflexivity | lia].
    + intros [D L]. destruct s as [|c s]; [now right | left].
      exists (String c EmptyString), s. split; [reflexivity|].
      cbn [allDigits] in D. apply andb_true_iff in D as [Dc Ds].
      split.
      * apply Matches_digit. cbn [allDigits]. rewrite Dc. auto.
      * apply IH. split; [exact Ds|]. unfold JsString.length in *. simpl in L. lia.
Qed.

Lemma Matches_Between_digit (m k : nat) (s : string) :
  Matches (Between digit m k) s <-> digitGroup m (m + k) s.
Proof.
  unfold Between, digitGroup. rewrite Matches_Cat. split.
  - intros (a & b & -> & Ha & Hb).
    apply Matches_Times_digit in Ha as [Da La].
    apply Matches_AtMost_digit in Hb as [Db Lb].
    rewrite allDigits_append, length_append, Da, Db. repeat split; lia.
  - intros (D & Lo & Hi). destruct (split_at m s Lo) as (a & b & -> & La).
    rewrite allDigits_append in D. apply andb_true_iff in D as [Da Db].
    rewrite length_append in Hi.
    exists a, b. split; [reflexivity|]. split.
    + now apply Matches_Times_digit.
    + apply Matches_AtMost_digit. split; [exact Db | lia].
Qed.

Lemma Matches_Times_digit_group (n : nat) (s : string) :
  Matches (Times digit n) s <-> digitGroup n n s.
Proof. unfold digitGroup. rewrite Matches_Times_digit. intuition lia. Qed.

(** The expression of the source and the pattern of the specification
    describe the same strings. *)
Lemma phoneRegex_pattern (s : string) :
  Matches phoneRegex s <-> LoosePhonePattern s.
Proof.
  unfold phoneRegex, LoosePhonePattern. split.
  - intros H.
    apply Matches_Cat in H as (plus & t1 & -> & Hplus & H).
    apply Matches_Cat in H as (lpar & t2 & -> & Hlpar & H).
    apply Matches_Cat in H as (area & t3 & -> & Harea & H).
    apply Matches_Cat in H as (rpar & t4 & -> & Hrpar & H).
    apply Matches_Cat in H as (sep1 & t5 & -> & Hsep1 & H).
    apply Matches_Cat in H as (exch & t6 & -> & Hexch & H).
    apply Matches_Cat in H as (sep2 & sub & -> & Hsep2 & Hsub).
    exists plus, lpar, area, rpar, sep1, exch, sep2, sub.
    split; [reflexivity|].
    rewrite <- !Matches_Opt_Chr, <- !Matches_Opt_separator,
      <- !Matches_Times_digit_group.
    change (digitGroup 4 6 sub) with (digitGroup 4 (4 + 2) sub).
    rewrite <- Matches_Between_digit. tauto.
  - intros (plus & lpar & area & rpar & sep1 & exch & sep2 & sub & -> &
            Hplus & Hlpar & Harea & Hrpar & Hsep1 & Hexch & Hsep2 & Hsub).
    apply Matches_Opt_Chr in Hplus, Hlpar, Hrpar.
    apply Matches_Opt_separator in Hsep1, Hsep2.
    apply Matches_Times_digit_group in Harea, Hexch.
    change (digitGroup 4 6 sub) with (digitGroup 4 (4 + 2) sub) in Hsub.
    apply Matches_Between_digit in Hsub.
    repeat (apply MCat; [assumption|]). exact Hsub.
Qed.

End PhoneFacts.

(** ** The combinators: where issues come from *)

Module ZodFacts.

Import Zod.

Lemma issuesOf_atKey {A} (key : string) (r : ParseReturn A) :
  issuesOf (atKey key r) = prefixed key (issuesOf r).
Proof. now destruct r. Qed.

Lemma issuesOf_ap {A B} (rf : ParseReturn (A -> B)) (ra : ParseReturn A) :
  issuesOf (ap rf ra) = (issuesOf rf ++ issuesOf ra)%list.
Proof. destruct rf, ra; simpl; rewrite ?app_nil_r; reflexivity. Qed.

Lemma ap_OK {A B} (rf : ParseReturn (A -> B)) (ra : ParseReturn A) (v : B) :
  ap rf ra = OK v <-> exists f a, rf = OK f /\ ra = OK a /\ v = f a.
Proof.
  split.
  - destruct rf, ra; simpl; try discriminate. intros [= <-]. eauto.
  - intros (f & a & -> & -> & ->). reflexivity.
Qed.

Lemma atKey_OK {A} (key : string) (r : ParseReturn A) (v : A) :
  atKey key r = OK v <-> r = OK v.
Proof. destruct r; simpl; split; congruence. Qed.

Lemma issues_safeParse {I A} (schema : ZodType I A) (input : I) :
  issues (safeParse schema input) = issuesOf (schema input).
Proof. unfold safeParse. now destruct (schema input). Qed.

Lemma safeParse_Success {I A} (schema : ZodType I A) (input : I) (v : A) :
  safeParse schema input = Success v <-> schema input = OK v.
Proof. unfold safeParse. destruct (schema input); split; congruence. Qed.

Lemma messagesAt_app (key : string) (a b : list ZodIssue) :
  messagesAt key (a ++ b)%list = (messagesAt key a ++ messagesAt key b)%list.
Proof. unfold messagesAt. now rewrite filter_app, map_app. Qed.

Lemma messagesAt_prefixed (key key' : string) (iss : list ZodIssue) :
  Rooted iss ->
  messagesAt key (prefixed key' iss) =
  if decide (key' = key) then map message iss else [].
Proof.
  unfold messagesAt, prefixed, Rooted.
  induction 1 as [|i iss Hi _ IH]; simpl.
  - now destruct (decide (key' = key)).
  - rewrite filter_cons. simpl. rewrite Hi. revert IH.
    destruct (decide (key' = key)) as [->|Hne]; intros IH.
    + rewrite decide_True by reflexivity. simpl. now rewrite IH.
    + rewrite decide_False by congruence. exact IH.
Qed.

Section Rooted.

Variable emailRegex : string -> bool.

Lemma runChecks_rooted (checks : list StringCheck) :
  forall data iss, Rooted iss -> Rooted (snd (runChecks emailRegex checks data iss)).
Proof.
  unfold Rooted.
  induction checks as [|[n msg|n msg|msg|] cs IH]; intros data iss H;
    cbn [runChecks]; [exact H|apply IH..].
  - destruct (_ <? _)%nat; [|exact H]. apply Forall_app. split; [exact H|]. now repeat constructor.
  - destruct (_ <? _)%nat; [|exact H]. apply Forall_app. split; [exact H|]. now repeat constructor.
  - destruct (emailRegex data); [exact H|]. apply Forall_app. split; [exact H|]. now repeat constructor.
  - exact H.
Qed.

Lemma finish_issues {A} (v : A) (iss : list ZodIssue) : issuesOf (finish v iss) = iss.
Proof. now destruct iss. Qed.

Lemma z_string_rooted (checks : list StringCheck) (v : JsValue) :
  Rooted (issuesOf (z_string emailRegex checks v)).
Proof.
  unfold z_string. destruct v; try (repeat constructor; fail).
  pose proof (runChecks_rooted checks s [] (List.Forall_nil _)) as H.
  destruct (runChecks emailRegex checks s []) as [d iss].
  now rewrite finish_issues.
Qed.

Lemma refine_rooted {I A} (schema : ZodType I A) check msg (x : I) :
  Rooted (issuesOf (schema x)) -> Rooted (issuesOf (refine schema check msg x)).
Proof.
  unfold refine, Rooted. destruct (schema x) as [v|v iss|iss]; simpl; intros H.
  - destruct (check v); simpl; now repeat constructor.
  - destruct (check v); [exact H|]. apply Forall_app. split; [exact H|]. now repeat constructor.
  - exact H.
Qed.

Lemma transform_rooted {I A B} (schema : ZodType I A) (f : A -> B) (x : I) :
  Rooted (issuesOf (schema x)) -> Rooted (issuesOf (transform schema f x)).
Proof. unfold transform. now destruct (schema x). Qed.

Lemma pipe_rooted {I A B} (a : ZodType I A) (b : ZodType A B) (x : I) :
  Rooted (issuesOf (a x)) -> (forall v, Rooted (issuesOf (b v))) ->
  Rooted (issuesOf (pipe a b x)).
Proof. unfold pipe. destruct (a x); auto. Qed.

Lemma optional_rooted {A} (schema : ZodType JsValue A) (x : JsValue) :
  Rooted (issuesOf (schema x)) -> Rooted (issuesOf (optional schema x)).
Proof.
  unfold optional. destruct x; try (now destruct (schema _)).
  intros _. constructor.
Qed.

End Rooted.

End ZodFacts.

(** ** The lead-submission schema, field by field *)

Module SchemaFacts.

Import Zod Schema ZodFacts JsStringFacts.

Section WithLibraries.

Variable purify : string -> string.
Variable emailRegex : string -> bool.

Abbreviation sanitize := (sanitizeInput purify).
Abbreviation schema := (leadSubmissionSchema purify emailRegex).
Abbreviation len := JsString.length.
Abbreviation nameMessages := (Schema.nameMessages purify).
Abbreviation emailMessages := (Schema.emailMessages emailRegex).
Abbreviation messageMessages := (Schema.messageMessages purify).

Lemma when_nil (b : bool) (msg : string) : when b msg = [] <-> b = false.
Proof. destruct b; simpl; split; congruence. Qed.

Lemma nameSchema_string (s : string) :
  map Zod.message (issuesOf (nameSchema purify emailRegex (JsString s))) = nameMessages s
  /\ (nameMessages s = [] ->
      nameSchema purify emailRegex (JsString s) = OK (sanitize s)).
Proof.
  unfold nameSchema, Schema.nameMessages, pipe, transform, z_string, when.
  cbn [runChecks].
  destruct (len s <? 1)%nat, (100 <? len s)%nat; cbn [orb finish app issuesOf map Zod.message];
    try (split; [reflexivity | discriminate]).
  destruct (len (sanitize s) <? 1)%nat; cbn [finish app issuesOf map Zod.message];
    split; first [reflexivity | discriminate].
Qed.

Lemma messageSchema_string (s : string) :
  map Zod.message (issuesOf (messageSchema purify emailRegex (JsString s))) = messageMessages s
  /\ (messageMessages s = [] ->
      messageSchema purify emailRegex (JsString s) = OK (sanitize s)).
Proof.
  unfold messageSchema, Schema.messageMessages, pipe, transform, z_string, when.
  cbn [runChecks].
  destruct (len s <? 1)%nat, (1000 <? len s)%nat; cbn [orb finish app issuesOf map Zod.message];
    try (split; [reflexivity | discriminate]).
  destruct (len (sanitize s) <? 1)%nat, (1000 <? len (sanitize s))%nat;
    cbn [finish app issuesOf map Zod.message];
    split; first [reflexivity | discriminate].
Qed.

Lemma emailSchema_string (e : string) :
  map Zod.message (issuesOf (emailSchema purify emailRegex (JsString e))) = emailMessages e
  /\ (emailMessages e = [] ->
      emailSchema purify emailRegex (JsString e)
      = OK (JsString.toLowerCase (sanitize (JsString.trim e)))).
Proof.
  unfold emailSchema, Schema.emailMessages, transform, refine, z_string, when.
  cbn [runChecks].
  destruct (emailRegex (JsString.trim e)), (255 <? len (JsString.trim e))%nat;
    cbn [negb finish app issuesOf map Zod.message];
    destruct (JsString.hasLineBreak (JsString.trim e));
    cbn [negb finish app issuesOf map Zod.message];
    split; first [reflexivity | discriminate].
Qed.

Lemma phoneSchema_string (p : string) :
  phoneSchema emailRegex (JsString p)
  = if phoneCheck (Some p) then OK (Some p)
    else DIRTY (Some p) [issue "Please enter a valid phone number"].
Proof. reflexivity. Qed.

Lemma phoneSchema_undefined : phoneSchema emailRegex JsUndefined = OK None.
Proof. reflexivity. Qed.

(** A value that is not a string yields one issue and no result. *)
Lemma not_a_string (v : JsValue) :
  (forall s, v <> JsString s) ->
  nameSchema purify emailRegex v = INVALID [invalidType v]
  /\ emailSchema purify emailRegex v = INVALID [invalidType v]
  /\ messageSchema purify emailRegex v = INVALID [invalidType v]
  /\ (v <> JsUndefined -> phoneSchema emailRegex v = INVALID [invalidType v]).
Proof.
  intros H. destruct v; try (now repeat split); exfalso; eapply H; reflexivity.
Qed.

Lemma nameSchema_rooted v : Rooted (issuesOf (nameSchema purify emailRegex v)).
Proof.
  apply pipe_rooted; [apply transform_rooted, z_string_rooted|].
  intros s. apply z_string_rooted.
Qed.

Lemma messageSchema_rooted v : Rooted (issuesOf (messageSchema purify emailRegex v)).
Proof.
  apply pipe_rooted; [apply transform_rooted, z_string_rooted|].
  intros s. apply z_string_rooted.
Qed.

Lemma emailSchema_rooted v : Rooted (issuesOf (emailSchema purify emailRegex v)).
Proof. apply transform_rooted, refine_rooted, z_string_rooted. Qed.

Lemma phoneSchema_rooted v : Rooted (issuesOf (phoneSchema emailRegex v)).
Proof. apply refine_rooted, optional_rooted, z_string_rooted. Qed.

(** The issues of the object are those of its keys, in the order of the
    shape, each under its key. *)
Lemma schema_issues (input : RawLead) :
  issues (safeParse schema input)
  = (prefixed "name" (issuesOf (nameSchema purify emailRegex (raw_name input)))
     ++ prefixed "email" (issuesOf (emailSchema purify emailRegex (raw_email input)))
     ++ prefixed "phone" (issuesOf (phoneSchema emailRegex (raw_phone input)))
     ++ prefixed "message" (issuesOf (messageSchema purify emailRegex (raw_message input))))%list.
Proof.
  rewrite issues_safeParse. unfold leadSubmissionSchema.
  rewrite !issuesOf_ap, !issuesOf_atKey. simpl. now rewrite <- !app_assoc.
Qed.

Lemma schema_messages (input : RawLead) :
  let iss := issues (safeParse schema input) in
  messagesAt "name" iss = map Zod.message (issuesOf (nameSchema purify emailRegex (raw_name input)))
  /\ messagesAt "email" iss = map Zod.message (issuesOf (emailSchema purify emailRegex (raw_email input)))
  /\ messagesAt "phone" iss = map Zod.message (issuesOf (phoneSchema emailRegex (raw_phone input)))
  /\ messagesAt "message" iss = map Zod.message (issuesOf (messageSchema purify emailRegex (raw_message input))).
Proof.
  cbv zeta. rewrite schema_issues, !messagesAt_app.
  rewrite !messagesAt_prefixed
    by first [apply nameSchema_rooted | apply emailSchema_rooted
             | apply phoneSchema_rooted | apply messageSchema_rooted].
  repeat split; repeat case_decide; try congruence;
    rewrite ?app_nil_r; reflexivity.
Qed.

(** The object is accepted exactly when its four keys are. *)
Lemma schema_success (input : RawLead) (out : LeadSubmission) :
  safeParse schema input = Success out <->
  nameSchema purify emailRegex (raw_name input) = OK (name out)
  /\ emailSchema purify emailRegex (raw_email input) = OK (email out)
  /\ phoneSchema emailRegex (raw_phone input) = OK (phone out)
  /\ messageSchema purify emailRegex (raw_message input) = OK (message out).
Proof.
  rewrite safeParse_Success. unfold leadSubmissionSchema.
  destruct (nameSchema purify emailRegex (raw_name input)),
    (emailSchema purify emailRegex (raw_email input)),
    (phoneSchema emailRegex (raw_phone input)),
    (messageSchema purify emailRegex (raw_message input));
    simpl; (split; [try discriminate | intros (? & ? & ? & ?); try discriminate]).
  - intros [= <-]. auto.
  - destruct out; simpl in *. congruence.
Qed.

Lemma nameSchema_OK (v : JsValue) (x : string) :
  nameSchema purify emailRegex v = OK x ->
  exists s, v = JsString s /\ x = sanitize s /\ nameMessages s = [].
Proof.
  intros H. destruct v as [| | | |s]; try discriminate.
  destruct (nameSchema_string s) as [Hm Hok].
  rewrite H in Hm. simpl in Hm. symmetry in Hm.
  rewrite (Hok Hm) in H. injection H as <-. eauto.
Qed.

Lemma messageSchema_OK (v : JsValue) (x : string) :
  messageSchema purify emailRegex v = OK x ->
  exists s, v = JsString s /\ x = sanitize s /\ messageMessages s = [].
Proof.
  intros H. destruct v as [| | | |s]; try discriminate.
  destruct (messageSchema_string s) as [Hm Hok].
  rewrite H in Hm. simpl in Hm. symmetry in Hm.
  rewrite (Hok Hm) in H. injection H as <-. eauto.
Qed.

Lemma emailSchema_OK (v : JsValue) (x : string) :
  emailSchema purify emailRegex v = OK x ->
  exists e, v = JsString e
    /\ x = JsString.toLowerCase (sanitize (JsString.trim e))
    /\ emailMessages e = [].
Proof.
  intros H. destruct v as [| | | |e]; try discriminate.
  destruct (emailSchema_string e) as [Hm Hok].
  rewrite H in Hm. simpl in Hm. symmetry in Hm.
  rewrite (Hok Hm) in H. injection H as <-. eauto.
Qed.

Lemma phoneSchema_OK (v : JsValue) (x : option string) :
  phoneSchema emailRegex v = OK x ->
  (v = JsUndefined /\ x = None)
  \/ (exists p, v = JsString p /\ x = Some p /\ phoneCheck (Some p) = true).
Proof.
  intros H. destruct v as [| | | |p]; try discriminate.
  - left. injection H as <-. auto.
  - right. rewrite phoneSchema_string in H.
    destruct (phoneCheck (Some p)) eqn:E; [|discriminate].
    injection H as <-. eauto.
Qed.

Lemma nameMessages_nil (s : string) :
  nameMessages s = [] <->
  (1 <= len s)%nat /\ (len s <= 100)%nat /\ (1 <= len (sanitize s))%nat.
Proof.
  unfold Schema.nameMessages, when.
  destruct (Nat.ltb_spec (len s) 1), (Nat.ltb_spec 100 (len s)); simpl;
    try (split; [discriminate | lia]).
  destruct (Nat.ltb_spec (len (sanitize s)) 1); split; first [discriminate | lia | reflexivity | auto].
Qed.

Lemma messageMessages_nil (s : string) :
  messageMessages s = [] <->
  (1 <= len s)%nat /\ (len s <= 1000)%nat
  /\ (1 <= len (sanitize s))%nat /\ (len (sanitize s) <= 1000)%nat.
Proof.
  unfold Schema.messageMessages, when.
  destruct (Nat.ltb_spec (len s) 1), (Nat.ltb_spec 1000 (len s)); cbn [orb app];
    try (split; [discriminate | lia]).
  destruct (Nat.ltb_spec (len (sanitize s)) 1), (Nat.ltb_spec 1000 (len (sanitize s)));
    cbn [app]; split; first [discriminate | lia | reflexivity | auto].
Qed.

Lemma emailMessages_nil (e : string) :
  emailMessages e = [] <->
  emailRegex (JsString.trim e) = true
  /\ (len (JsString.trim e) <= 255)%nat
  /\ JsString.hasLineBreak (JsString.trim e) = false.
Proof.
  unfold Schema.emailMessages, when. cbv zeta.
  destruct (emailRegex (JsString.trim e)), (Nat.ltb_spec 255 (len (JsString.trim e))),
    (JsString.hasLineBreak (JsString.trim e)); cbn [negb app];
    split; first [discriminate | lia | reflexivity | intros (? & ? & ?); first [discriminate | lia] | auto].
Qed.

Lemma schema_failure (input : RawLead) :
  issues (safeParse schema input) <> [] ->
  safeParse schema input = Failure (issues (safeParse schema input)).
Proof. destruct (safeParse schema input); simpl; congruence. Qed.

End WithLibraries.

End SchemaFacts.

(* ===================================================================== *)
(** * The lead-submission schema: the specification's claims *)
(* ===================================================================== *)

Module SchemaSpec.

Import Zod Schema Samples ZodFacts JsStringFacts SchemaFacts.

(** C1, as amended.  A name of at most 100 characters, or a message of at most
    1000 characters, that the sanitizer reduces to the empty string (a field
    made only of markup the sanitizer strips) fails validation, and the one
    error reported for that field is the minimum-length error, "Name is
    required" or "Message is required". *)
Theorem C1_stripped_markup_is_required_error
  (purify : string -> string) (emailRegex : string -> bool)
  (input : RawLead) (s : string)
  (Hstripped : sanitizeInput purify s = EmptyString) :
  (raw_name input = JsString s -> (JsString.length s <= 100)%nat ->
   exists iss,
     safeParse (leadSubmissionSchema purify emailRegex) input = Failure iss
     /\ messagesAt "name" iss = ["Name is required"])
  /\
  (raw_message input = JsString s -> (JsString.length s <= 1000)%nat ->
   exists iss,
     safeParse (leadSubmissionSchema purify emailRegex) input = Failure iss
     /\ messagesAt "message" iss = ["Message is required"]).
Proof.
  destruct (schema_messages purify emailRegex input) as (Hn & _ & _ & Hm).
  split; intros Hraw Hlen.
  - exists (issues (safeParse (leadSubmissionSchema purify emailRegex) input)).
    assert (E : messagesAt "name"
                  (issues (safeParse (leadSubmissionSchema purify emailRegex) input))
                = ["Name is required"]).
    { rewrite Hn, Hraw, (proj1 (nameSchema_string purify emailRegex s)).
      unfold nameMessages. rewrite Hstripped.
      apply Nat.ltb_ge in Hlen. rewrite Hlen.
      destruct (JsString.length s <? 1)%nat; reflexivity. }
    split; [|exact E]. apply schema_failure. intros Hnil. now rewrite Hnil in E.
  - exists (issues (safeParse (leadSubmissionSchema purify emailRegex) input)).
    assert (E : messagesAt "message"
                  (issues (safeParse (leadSubmissionSchema purify emailRegex) input))
                = ["Message is required"]).
    { rewrite Hm, Hraw, (proj1 (messageSchema_string purify emailRegex s)).
      unfold messageMessages. rewrite Hstripped.
      apply Nat.ltb_ge in Hlen. rewrite Hlen.
      destruct (JsString.length s <? 1)%nat; reflexivity. }
    split; [|exact E]. apply schema_failure. intros Hnil. now rewrite Hnil in E.
Qed.

(** C1 at a form whose name and message are the empty bold element. *)
Lemma C1_witness :
  (exists iss,
     safeParse (leadSubmissionSchema Reference.stripTags Reference.emailFormat)
       (johnDoe "<b></b>" "<b></b>") = Failure iss
     /\ messagesAt "name" iss = ["Name is required"])
  /\
  (exists iss,
     safeParse (leadSubmissionSchema Reference.stripTags Reference.emailFormat)
       (johnDoe "<b></b>" "<b></b>") = Failure iss
     /\ messagesAt "message" iss = ["Message is required"]).
Proof.
  destruct (C1_stripped_markup_is_required_error
              Reference.stripTags Reference.emailFormat
              (johnDoe "<b></b>" "<b></b>") "<b></b>" eq_refl) as [Hn Hm].
  split; [apply Hn | apply Hm]; first [reflexivity | vm_compute; lia].
Defined.

(** C1 as stated fails: a name made of fifteen empty bold elements (105
    characters) is reduced to the empty string by the sanitizer, and the
    error reported for it is "Name is too long", not the minimum-length
    error. *)
Lemma C1_counterexample :
  sanitizeInput Reference.stripTags (JsString.repeat "<b></b>" 15) = EmptyString
  /\ JsString.length (JsString.repeat "<b></b>" 15) = 105%nat
  /\ safeParse (leadSubmissionSchema Reference.stripTags Reference.emailFormat)
       (johnDoe (JsString.repeat "<b></b>" 15) "Hello")
     = Failure [mkIssue ["name"] "Name is too long"].
Proof. vm_compute. auto. Qed.

(** C2, as amended.  For a name and a message that are strings with no white
    space at either end (so that trimming leaves their length as it is), the
    schema accepts the name exactly when its length is between 1 and 100 and
    its sanitized value is not empty, and accepts the message exactly when its
    length is between 1 and 1000 and its sanitized value has between 1 and
    1000 characters.  A message of 1000 "A" is accepted when the sanitizer
    returns it unchanged; a message of 1001 "A" is rejected. *)
Theorem C2_length_bounds
  (purify : string -> string) (emailRegex : string -> bool)
  (input : RawLead) (n m : string)
  (Hname : raw_name input = JsString n)
  (Hmessage : raw_message input = JsString m)
  (Hn : JsString.trim n = n)
  (Hm : JsString.trim m = m) :
  let iss := issues (safeParse (leadSubmissionSchema purify emailRegex) input) in
  (messagesAt "name" iss = [] <->
     (1 <= JsString.length (JsString.trim n))%nat
     /\ (JsString.length (JsString.trim n) <= 100)%nat
     /\ (1 <= JsString.length (sanitizeInput purify n))%nat)
  /\ (messagesAt "message" iss = [] <->
     (1 <= JsString.length (JsString.trim m))%nat
     /\ (JsString.length (JsString.trim m) <= 1000)%nat
     /\ (1 <= JsString.length (sanitizeInput purify m))%nat
     /\ (JsString.length (sanitizeInput purify m) <= 1000)%nat)
  /\ (m = JsString.repeat "A" 1000 -> sanitizeInput purify m = m ->
      messagesAt "message" iss = [])
  /\ (m = JsString.repeat "A" 1001 -> messagesAt "message" iss <> []).
Proof.
  cbv zeta.
  destruct (schema_messages purify emailRegex input) as (Hn' & _ & _ & Hm').
  rewrite Hn', Hm', Hname, Hmessage, Hn, Hm.
  rewrite (proj1 (nameSchema_string purify emailRegex n)).
  rewrite (proj1 (messageSchema_string purify emailRegex m)).
  rewrite nameMessages_nil, messageMessages_nil.
  split; [reflexivity|]. split; [reflexivity|]. split.
  - intros -> ->. rewrite length_repeat_char. lia.
  - intros -> (_ & H & _). rewrite length_repeat_char in H. lia.
Qed.

(** C2 at a form whose message is 1000 "A". *)
Lemma C2_witness :
  messagesAt "message"
    (issues (safeParse (leadSubmissionSchema Reference.stripTags Reference.emailFormat)
               (johnDoe "John Doe" (JsString.repeat "A" 1000)))) = [].
Proof.
  destruct (C2_length_bounds Reference.stripTags Reference.emailFormat
              (johnDoe "John Doe" (JsString.repeat "A" 1000))
              "John Doe" (JsString.repeat "A" 1000) eq_refl eq_refl)
    as (_ & _ & H & _); [reflexivity | vm_compute; reflexivity|].
  apply H; [reflexivity | vm_compute; reflexivity].
Defined.

(** C2 as stated fails.  A name that is one empty bold element has 7
    characters after trimming and is rejected, its sanitized value being
    empty.  The padded name (100 "A" with a space on each side) has 100
    characters after trimming, and after sanitizing and trimming as well, and
    is rejected as too long, whatever the sanitizer and the e-mail test. *)
Lemma C2_counterexample :
  (JsString.length (JsString.trim "<b></b>") = 7%nat
   /\ messagesAt "name"
        (issues (safeParse (leadSubmissionSchema Reference.stripTags Reference.emailFormat)
                   (johnDoe "<b></b>" "Hello")))
      = ["Name is required"])
  /\
  (JsString.length (JsString.trim paddedName) = 100%nat
   /\ JsString.length (sanitizeInput Reference.stripTags paddedName) = 100%nat
   /\ forall purify emailRegex,
        messagesAt "name"
          (issues (safeParse (leadSubmissionSchema purify emailRegex)
                     (johnDoe paddedName "Hello")))
        = ["Name is too long"]).
Proof.
  split; [split; vm_compute; reflexivity|].
  split; [vm_compute; reflexivity|]. split; [vm_compute; reflexivity|].
  intros purify emailRegex.
  rewrite (proj1 (schema_messages purify emailRegex _)).
  cbn [johnDoe raw_name].
  rewrite (proj1 (nameSchema_string purify emailRegex paddedName)).
  unfold nameMessages.
  assert (L : JsString.length paddedName = 102%nat) by (vm_compute; reflexivity).
  rewrite L. reflexivity.
Qed.



(** C4, as amended.  The messages reported for a string e-mail are, in this
    order, the format error, the length error and the newline error, each
    decided on the trimmed value: so the e-mail is accepted exactly when the
    trimmed value passes Zod's format test, has at most 255 characters and
    holds no carriage return or line feed; a trimmed value that holds one is
    rejected with "Email cannot contain newlines"; and an accepted e-mail is
    returned as the trimmed value sanitized and put in lower case.  Carriage
    returns and line feeds at the two ends of the submitted value are removed
    by the trim and do not reject it. *)
Theorem C4_email_checks
  (purify : string -> string) (emailRegex : string -> bool)
  (input : RawLead) (e : string)
  (Hemail : raw_email input = JsString e) :
  let t := JsString.trim e in
  let iss := issues (safeParse (leadSubmissionSchema purify emailRegex) input) in
  messagesAt "email" iss
  = (when (negb (emailRegex t)) "Please enter a valid email address"
     ++ when (255 <? JsString.length t)%nat "Email is too long"
     ++ when (JsString.hasLineBreak t) "Email cannot contain newlines")%list
  /\ (messagesAt "email" iss = [] <->
      emailRegex t = true /\ (JsString.length t <= 255)%nat
      /\ JsString.hasLineBreak t = false)
  /\ (JsString.hasLineBreak t = true ->
      In "Email cannot contain newlines" (messagesAt "email" iss))
  /\ (forall out,
        safeParse (leadSubmissionSchema purify emailRegex) input = Success out ->
        email out = JsString.toLowerCase (sanitizeInput purify t)).
Proof.
  cbv zeta.
  rewrite (proj1 (proj2 (schema_messages purify emailRegex input))), Hemail.
  rewrite (proj1 (emailSchema_string purify emailRegex e)).
  split; [reflexivity|]. split; [apply emailMessages_nil|]. split.
  - intros H. unfold emailMessages. cbv zeta. rewrite H.
    apply in_or_app. right. apply in_or_app. right. now left.
  - intros out H. apply schema_success in H as (_ & He & _).
    rewrite Hemail in He. apply emailSchema_OK in He as (e' & [= <-] & -> & _).
    reflexivity.
Qed.

(** C4 at a form with an upper-case e-mail. *)
Lemma C4_witness :
  messagesAt "email"
    (issues (safeParse (leadSubmissionSchema Reference.stripTags Reference.emailFormat)
               (mkRaw (JsString "John Doe") (JsString "JOHN.DOE@EXAMPLE.COM")
                  JsUndefined (JsString "Test message")))) = [].
Proof.
  rewrite (proj1 (C4_email_checks Reference.stripTags Reference.emailFormat
                    (mkRaw (JsString "John Doe") (JsString "JOHN.DOE@EXAMPLE.COM")
                       JsUndefined (JsString "Test message"))
                    "JOHN.DOE@EXAMPLE.COM" eq_refl)).
  vm_compute. reflexivity.
Defined.

(** C4 as stated fails: an e-mail value that ends in a line feed contains a
    newline character and is accepted, the trim having removed it. *)
Lemma C4_counterexample :
  JsString.hasLineBreak emailThenLineFeed = true
  /\ safeParse (leadSubmissionSchema Reference.stripTags Reference.emailFormat)
       (mkRaw (JsString "John Doe") (JsString emailThenLineFeed) JsUndefined
          (JsString "Hello"))
     = Success (mkLead "John Doe" "john@example.com" None "Hello").
Proof. vm_compute. auto. Qed.

Lemma phoneCheck_pattern (p : string) :
  phoneCheck (Some p) = true <->
  p = EmptyString \/ LoosePhonePattern (JsString.removeWhiteSpace p).
Proof.
  destruct p as [|c p].
  - split; [now left | reflexivity].
  - cbn [phoneCheck]. rewrite RegexFacts.test_Matches, PhoneFacts.phoneRegex_pattern.
    split; [now right | intros [H|H]; [discriminate | exact H]].
Qed.

(** C5, as amended.  An absent phone is accepted.  A phone string is accepted
    exactly when it is empty or, once all its white space is removed, has the
    loose phone pattern: an optional plus, an optional opening parenthesis,
    three digits, an optional closing parenthesis, an optional separator,
    three digits, an optional separator, four to six digits.  "555-123" is
    rejected and "(555) 123-4567" is accepted. *)
Theorem C5_phone_pattern
  (purify : string -> string) (emailRegex : string -> bool) (input : RawLead) :
  let iss := issues (safeParse (leadSubmissionSchema purify emailRegex) input) in
  (raw_phone input = JsUndefined -> messagesAt "phone" iss = [])
  /\ (forall p, raw_phone input = JsString p ->
        (messagesAt "phone" iss = [] <->
         p = EmptyString \/ LoosePhonePattern (JsString.removeWhiteSpace p)))
  /\ (raw_phone input = JsString "555-123" ->
      messagesAt "phone" iss = ["Please enter a valid phone number"])
  /\ (raw_phone input = JsString "(555) 123-4567" -> messagesAt "phone" iss = []).
Proof.
  cbv zeta.
  rewrite (proj1 (proj2 (proj2 (schema_messages purify emailRegex input)))).
  split; [|split; [|split]].
  - intros ->. reflexivity.
  - intros p ->. rewrite phoneSchema_string, <- phoneCheck_pattern.
    destruct (phoneCheck (Some p)); simpl; split; congruence.
  - intros ->. reflexivity.
  - intros ->. reflexivity.
Qed.

(** C5 at the two phone numbers of the specification. *)
Lemma C5_witness :
  messagesAt "phone"
    (issues (safeParse (leadSubmissionSchema Reference.stripTags Reference.emailFormat)
       (mkRaw (JsString "John Doe") (JsString "john@example.com")
          (JsString "555-123") (JsString "Test message"))))
  = ["Please enter a valid phone number"]
  /\ messagesAt "phone"
    (issues (safeParse (leadSubmissionSchema Reference.stripTags Reference.emailFormat)
       (mkRaw (JsString "John Doe") (JsString "john@example.com")
          (JsString "(555) 123-4567") (JsString "Test message"))))
  = [].
Proof.
  split.
  - apply (C5_phone_pattern Reference.stripTags Reference.emailFormat
             (mkRaw (JsString "John Doe") (JsString "john@example.com")
                (JsString "555-123") (JsString "Test message"))).
    reflexivity.
  - apply (proj2 (proj2 (proj2
      (C5_phone_pattern Reference.stripTags Reference.emailFormat
         (mkRaw (JsString "John Doe") (JsString "john@example.com")
            (JsString "(555) 123-4567") (JsString "Test message")))))).
    reflexivity.
Defined.

(** C5 as stated fails: the empty phone string is accepted, and with its
    white space removed it still does not match the phone expression. *)
Lemma C5_counterexample :
  Regex.test phoneRegex (JsString.removeWhiteSpace EmptyString) = false
  /\ safeParse (leadSubmissionSchema Reference.stripTags Reference.emailFormat)
       (mkRaw (JsString "John Doe") (JsString "john@example.com")
          (JsString EmptyString) (JsString "Test message"))
     = Success (mkLead "John Doe" "john@example.com" (Some EmptyString) "Test message").
Proof. vm_compute. auto. Qed.

(** C10.  An empty phone string does not reject a submission: an object that
    is accepted without a phone is accepted with the empty string as its
    phone, and the phone returned is the empty string.  Every accepted
    submission returns its phone as it was supplied: absent when it was
    absent, and otherwise the very string submitted. *)
Theorem C10_phone_returned_as_supplied
  (purify : string -> string) (emailRegex : string -> bool) (input : RawLead) :
  (forall out,
     safeParse (leadSubmissionSchema purify emailRegex) (withPhone JsUndefined input)
       = Success out ->
     safeParse (leadSubmissionSchema purify emailRegex)
       (withPhone (JsString EmptyString) input)
       = Success (mkLead (name out) (email out) (Some EmptyString) (message out)))
  /\
  (forall out,
     safeParse (leadSubmissionSchema purify emailRegex) input = Success out ->
     match phone out with
     | Some p => raw_phone input = JsString p
     | None => raw_phone input = JsUndefined
     end).
Proof.
  split; intros out H; apply schema_success in H as (Hn & He & Hp & Hm).
  - apply schema_success. cbn [withPhone raw_name raw_email raw_phone raw_message
      name email phone message] in *. auto.
  - apply phoneSchema_OK in Hp as [[-> ->] | (p & -> & -> & _)]; reflexivity.
Qed.

(** C10 at a form submitted with an empty phone string. *)
Lemma C10_witness :
  safeParse (leadSubmissionSchema Reference.stripTags Reference.emailFormat)
    (withPhone (JsString EmptyString) (johnDoe "John Doe" "Test message"))
  = Success (mkLead "John Doe" "john@example.com" (Some EmptyString) "Test message").
Proof.
  apply (proj1 (C10_phone_returned_as_supplied
                  Reference.stripTags Reference.emailFormat
                  (johnDoe "John Doe" "Test message"))
               (mkLead "John Doe" "john@example.com" None "Test message")).
  vm_compute. reflexivity.
Defined.

End SchemaSpec.

(* ===================================================================== *)
(** * The setup wizard: the specification's claims *)
(* ===================================================================== *)

Module WizardSpec.

Import Wizard.

Lemma initialStep_parsed (s : string) :
  s <> EmptyString ->
  initialStep (Some s)
  = match parseInt s with
    | Some n => if (1 <=? n)%Z && (n <=? 9)%Z then n else 1%Z
    | None => 1%Z
    end.
Proof. destruct s; [congruence | reflexivity]. Qed.

Lemma parseInt_empty : parseInt EmptyString = None.
Proof. reflexivity. Qed.

(** C6.  On load the wizard starts at step 1 when nothing is stored, when the
    stored value does not parse as an integer ([parseInt] gives [NaN]) and
    when it parses to an integer outside 1..9; it starts at the stored integer
    when that lies in 1..9.  The stored value "99" gives step 1. *)
Theorem C6_initial_step (saved : option string) :
  (saved = None -> initialStep saved = 1%Z)
  /\ (forall s, saved = Some s -> parseInt s = None -> initialStep saved = 1%Z)
  /\ (forall s n, saved = Some s -> parseInt s = Some n ->
        (n < 1 \/ 9 < n)%Z -> initialStep saved = 1%Z)
  /\ (forall s n, saved = Some s -> parseInt s = Some n ->
        (1 <= n <= 9)%Z -> initialStep saved = n)
  /\ (saved = Some "99" -> initialStep saved = 1%Z).
Proof.
  repeat split.
  - intros ->. reflexivity.
  - intros s -> H. destruct s; [reflexivity|].
    rewrite initialStep_parsed by discriminate. now rewrite H.
  - intros s n -> H Hn. destruct s; [reflexivity|].
    rewrite initialStep_parsed by discriminate. rewrite H.
    destruct (Z.leb_spec 1 n), (Z.leb_spec n 9); simpl; lia.
  - intros s n -> H Hn. destruct s; [discriminate|].
    rewrite initialStep_parsed by discriminate. rewrite H.
    destruct (Z.leb_spec 1 n), (Z.leb_spec n 9); simpl; lia.
  - intros ->. reflexivity.
Qed.

(** C6 at the stored values "99", "7" and "abc". *)
Lemma C6_witness :
  initialStep (Some "99") = 1%Z
  /\ initialStep (Some "7") = 7%Z
  /\ initialStep (Some "abc") = 1%Z.
Proof.
  split; [|split].
  - apply (proj1 (proj2 (proj2 (C6_initial_step (Some "99")))) "99" 99%Z);
      [reflexivity | reflexivity | lia].
  - apply (proj1 (proj2 (proj2 (proj2 (C6_initial_step (Some "7"))))) "7" 7%Z);
      [reflexivity | reflexivity | lia].
  - apply (proj1 (proj2 (C6_initial_step (Some "abc"))) "abc"); reflexivity.
Defined.

Lemma react_keeps_rate_limit (st : State) (ev : Event) :
  notSuccessful ev -> isRateLimited st = true -> isRateLimited (react st ev) = true.
Proof.
  destruct ev as [key res|n]; simpl; intros Hev Hst; [|exact Hst].
  unfold queryFn. rewrite Hev. simpl.
  destruct (status res =? 429)%Z; simpl; [reflexivity | exact Hst].
Qed.

Lemma run_keeps_rate_limit (evs : list Event) :
  forall st, Forall notSuccessful evs -> isRateLimited st = true ->
             isRateLimited (run st evs) = true.
Proof.
  unfold run. induction evs as [|ev evs IH]; intros st Hevs Hst; simpl; [exact Hst|].
  inversion Hevs; subst. apply IH; [assumption|]. now apply react_keeps_rate_limit.
Qed.

Lemma polling_rate_limited (st : State) : isRateLimited st = true -> polling st = None.
Proof.
  unfold polling, refetchInterval. intros ->. rewrite andb_false_r.
  destruct (cache st !! step st) as [d|]; [destruct (configured d)|]; reflexivity.
Qed.

(** C9, as amended.  Polling, when on, has the fixed interval of 5000 ms, and
    it is on exactly when the wizard is on step 8, the rate-limit flag is
    clear and the status held for that step does not report the setup as
    configured.  A 429 response sets the flag and stops polling, and polling
    stays stopped through step changes and unsuccessful responses; a status
    that reports the setup as configured stops polling while it is the status
    held for the step.  A later successful response clears the flag. *)
Theorem C9_polling (st : State) :
  (forall ms, polling st = Some ms ->
     ms = 5000%Z /\ step st = 8%Z /\ isRateLimited st = false
     /\ forall d, cache st !! step st = Some d -> configured d = false)
  /\ (step st = 8%Z -> isRateLimited st = false ->
      (forall d, cache st !! step st = Some d -> configured d = false) ->
      polling st = Some 5000%Z)
  /\ (forall key res evs, status res = 429%Z -> Forall notSuccessful evs ->
      polling (run (react st (Fetched key res)) evs) = None)
  /\ (forall d, cache st !! step st = Some d -> configured d = true ->
      polling st = None)
  /\ (forall key res d, ok res = true -> body res = Some d ->
      isRateLimited (react st (Fetched key res)) = false).
Proof.
  repeat split.
  - revert H. unfold polling, refetchInterval.
    destruct (cache st !! step st) as [d|]; [destruct (configured d); [discriminate|]|];
      destruct ((step st =? 8)%Z && negb (isRateLimited st)); congruence.
  - revert H. unfold polling, refetchInterval.
    destruct (cache st !! step st) as [d|]; [destruct (configured d); [discriminate|]|];
      destruct (step st =? 8)%Z eqn:E; simpl; try discriminate; intros _; lia.
  - revert H. unfold polling, refetchInterval.
    destruct (cache st !! step st) as [d|]; [destruct (configured d); [discriminate|]|];
      destruct (step st =? 8)%Z, (isRateLimited st); simpl; congruence.
  - intros d Hd. revert H. unfold polling, refetchInterval. rewrite Hd.
    destruct (configured d); [discriminate | reflexivity].
  - intros Hstep Hflag Hdata. unfold polling, refetchInterval.
    rewrite Hstep, Hflag. simpl.
    destruct (cache st !! 8%Z) as [d|] eqn:E; [|reflexivity].
    rewrite Hstep in Hdata. now rewrite (Hdata d E).
  - intros key res evs H429 Hevs. apply polling_rate_limited.
    apply run_keeps_rate_limit; [exact Hevs|].
    simpl. unfold queryFn, ok. rewrite H429. reflexivity.
  - intros d Hd Hc. unfold polling, refetchInterval. now rewrite Hd, Hc.
  - intros key res d Hok Hbody. simpl. unfold queryFn. now rewrite Hok, Hbody.
Qed.

(** C9 on the OAuth step, before and after a 429 response followed by a step
    back and forth. *)
Lemma C9_witness :
  polling (mount (Some "8")) = Some 5000%Z
  /\ polling (run (react (mount (Some "8")) (Fetched 8 tooManyRequests))
                [SetStep 7; SetStep 8]) = None.
Proof.
  split.
  - apply (proj1 (proj2 (C9_polling (mount (Some "8"))))); [reflexivity | reflexivity|].
    intros d H. vm_compute in H. discriminate.
  - apply (proj1 (proj2 (proj2 (C9_polling (mount (Some "8"))))));
      [reflexivity | repeat constructor].
Defined.

(** C9 as stated fails: on the OAuth step a 429 response stops polling, and
    the next successful response (to a refetch, which the validation button
    and the credential forms trigger), still reporting the setup as not
    configured, resumes it. *)
Lemma C9_counterexample :
  polling (run (mount (Some "8")) [Fetched 8 tooManyRequests]) = None
  /\ polling (run (mount (Some "8"))
                [Fetched 8 tooManyRequests; Fetched 8 notYetConfigured])
     = Some 5000%Z.
Proof. vm_compute. auto. Qed.

End WizardSpec.

(* ===================================================================== *)
(** * The configuration fetch: the specification's claims *)
(* ===================================================================== *)

Module ConfigSpec.

Import Config.

Section Defaults.

Variable fullYear : string.

Lemma catchBlock_default (error : JsError) (a : Attempt) :
  catchBlock fullYear error a = inr (JObj (DEFAULT_CONFIG fullYear)).
Proof.
  unfold catchBlock, ret.
  destruct (isError error); [|reflexivity].
  destruct (String.eqb (errName error) "AbortError" && abortedInCatch a); [reflexivity|].
  destruct (String.eqb (errName error) "AbortError"); [reflexivity|].
  destruct (JsString.includes (errMessage error) "fetch"
            || JsString.includes (errMessage error) "cancelled"); reflexivity.
Qed.

Lemma queryFn_of_throw (a : Attempt) (error : JsError) :
  tryBlock fullYear a = inl error ->
  queryFn fullYear a = inr (JObj (DEFAULT_CONFIG fullYear)).
Proof. unfold queryFn. intros ->. apply catchBlock_default. Qed.

(** A value that is not falsy, is an object for [typeof] and has a truthy
    key is a JSON object. *)
Lemma truthy_prop_object (data : Json) (key : string) :
  falsy (prop data key) = false -> exists m, data = JObj m.
Proof. destruct data; simpl; try discriminate. eauto. Qed.

Lemma queryFn_settles (a : Attempt) :
  exists cfg,
    queryFn fullYear a = inr (JObj cfg)
    /\ (cfg = DEFAULT_CONFIG fullYear
        \/ exists res data,
             fetched a = FetchResolves res /\ json res = JsonResolves data
             /\ (data = JObj cfg \/ cfg = spread (DEFAULT_CONFIG fullYear) data)).
Proof.
  unfold queryFn.
  destruct (tryBlock fullYear a) as [error|v] eqn:T.
  { exists (DEFAULT_CONFIG fullYear). rewrite catchBlock_default. auto. }
  revert T. unfold tryBlock, throw, ret.
  destruct (fetched a) as [e|res] eqn:F; [discriminate|].
  destruct (abortedAfterFetch a); [discriminate|].
  destruct (negb (ok res)).
  { destruct (500 <=? status res)%Z; [|discriminate].
    intros [= <-]. eauto. }
  destruct (json res) as [e|data] eqn:J; [discriminate|].
  destruct (falsy (Some data) || negb (typeofObject data)).
  { intros [= <-]. eauto. }
  destruct (falsy (prop data "branding")) eqn:B; simpl.
  { intros [= <-]. exists (spread (DEFAULT_CONFIG fullYear) data).
    split; [reflexivity|]. right. exists res, data. auto. }
  destruct (falsy (prop data "content")).
  { intros [= <-]. exists (spread (DEFAULT_CONFIG fullYear) data).
    split; [reflexivity|]. right. exists res, data. auto. }
  intros [= <-]. apply truthy_prop_object in B as [m ->].
  exists m. split; [reflexivity|]. right. exists res, (JObj m). auto.
Qed.

Lemma queryFn_not_ok (a : Attempt) (res : Response) :
  fetched a = FetchResolves res -> ok res = false ->
  queryFn fullYear a = inr (JObj (DEFAULT_CONFIG fullYear)).
Proof.
  intros F Hok. unfold queryFn, tryBlock. rewrite F, Hok. simpl.
  destruct (abortedAfterFetch a); [apply catchBlock_default|].
  destruct (500 <=? status res)%Z; [reflexivity | apply catchBlock_default].
Qed.

End Defaults.

(** C7.  However the fetch settles, the query function returns and never
    throws, and what it returns is a configuration object: the default
    configuration, or the object the server sent (when its branding and
    content are present), or the default configuration with the server's
    properties spread over it (when one of the two is missing).  A rejected
    fetch (network error, timeout), a response that is not OK and a body that
    is not JSON all give the default configuration. *)
Theorem C7_query_function_always_resolves (fullYear : string) (a : Attempt) :
  (exists cfg,
     queryFn fullYear a = inr (JObj cfg)
     /\ (cfg = DEFAULT_CONFIG fullYear
         \/ exists res data,
              fetched a = FetchResolves res /\ json res = JsonResolves data
              /\ (data = JObj cfg \/ cfg = spread (DEFAULT_CONFIG fullYear) data)))
  /\ (forall e, fetched a = FetchRejects e ->
        queryFn fullYear a = inr (JObj (DEFAULT_CONFIG fullYear)))
  /\ (forall res, fetched a = FetchResolves res -> ok res = false ->
        queryFn fullYear a = inr (JObj (DEFAULT_CONFIG fullYear)))
  /\ (forall res e, fetched a = FetchResolves res -> json res = JsonRejects e ->
        queryFn fullYear a = inr (JObj (DEFAULT_CONFIG fullYear)))
  /\ (forall res m,
        fetched a = FetchResolves res -> abortedAfterFetch a = false ->
        ok res = true -> json res = JsonResolves (JObj m) ->
        queryFn fullYear a
        = inr (JObj (if falsy (m !! "branding") || falsy (m !! "content")
                     then m ∪ DEFAULT_CONFIG fullYear else m))).
Proof.
  split; [|split; [|split; [|split]]].
  - apply queryFn_settles.
  - intros e F. apply (queryFn_of_throw fullYear a e). unfold tryBlock. now rewrite F.
  - intros res F Hok. now apply (queryFn_not_ok fullYear a res).
  - intros res e F J. unfold queryFn, tryBlock. rewrite F, J.
    destruct (abortedAfterFetch a); [apply catchBlock_default|].
    destruct (negb (ok res)); [|apply catchBlock_default].
    destruct (500 <=? status res)%Z; [reflexivity | apply catchBlock_default].
  - intros res m F Hab Hok J. unfold queryFn, tryBlock. rewrite F, Hab, Hok, J. simpl.
    destruct (falsy (m !! "branding") || falsy (m !! "content")); reflexivity.
Qed.

(** C7 under a network failure, and on a response without content. *)
Lemma C7_witness :
  queryFn "2025" networkFailure = inr (JObj (DEFAULT_CONFIG "2025"))
  /\ queryFn "2025"
       (mkAttempt (FetchResolves (mkResponse 200 "OK" (JsonResolves (JObj brandingOnly))))
          false false)
     = inr (JObj (brandingOnly ∪ DEFAULT_CONFIG "2025")).
Proof.
  split.
  - apply (proj1 (proj2 (C7_query_function_always_resolves "2025" networkFailure))
             (mkError true "TypeError" "Failed to fetch")).
    reflexivity.
  - apply (proj2 (proj2 (proj2 (proj2
      (C7_query_function_always_resolves "2025"
         (mkAttempt (FetchResolves (mkResponse 200 "OK" (JsonResolves (JObj brandingOnly))))
            false false)))))
      (mkResponse 200 "OK" (JsonResolves (JObj brandingOnly))) brandingOnly);
      reflexivity.
Defined.

Lemma retryDelay_bounds (i : nat) :
  (1000 <= retryDelay i <= 5000)%Z /\ (retryDelay i <= retryDelay (S i))%Z.
Proof.
  unfold retryDelay.
  assert (H : (0 < 2 ^ Z.of_nat i)%Z) by (apply Z.pow_pos_nonneg; lia).
  assert (H' : (2 ^ Z.of_nat (S i) = 2 * 2 ^ Z.of_nat i)%Z)
    by (rewrite Nat2Z.inj_succ, Z.pow_succ_r; lia).
  rewrite H'. lia.
Qed.

Lemma retry_true (failureCount : nat) (error : JsError) :
  retry failureCount error = true ->
  failureCount = 0%nat /\ isError error = true
  /\ let errorMessage := JsString.toLowerCase (errMessage error) in
     (JsString.includes errorMessage "network" = true
      \/ JsString.includes errorMessage "timeout" = true
      \/ JsString.includes errorMessage "500" = true
      \/ JsString.includes errorMessage "503" = true
      \/ JsString.includes errorMessage "502" = true).
Proof.
  unfold retry. destruct (Nat.ltb_spec failureCount 1); [|discriminate].
  destruct (isError error); [|discriminate]. cbv zeta.
  destruct (JsString.includes _ "network"); [intros _; repeat split; [lia | auto]|].
  destruct (JsString.includes _ "timeout"); [intros _; repeat split; [lia | auto]|].
  destruct (JsString.includes _ "500"); [intros _; repeat split; [lia | auto]|].
  destruct (JsString.includes _ "503"); [intros _; repeat split; [lia | auto 6]|].
  destruct (JsString.includes _ "502"); [intros _; repeat split; [lia | auto 6]|].
  discriminate.
Qed.

Lemma retry_after_failure (failureCount : nat) (error : JsError) :
  (1 <= failureCount)%nat -> retry failureCount error = false.
Proof.
  intros H. unfold retry. destruct (Nat.ltb_spec failureCount 1); [lia | reflexivity].
Qed.

(** C8.  The [retry] option allows a retry only after the first failure
    (failure count 0) and only for an error whose message, in lower case,
    holds "network", "timeout", "500", "503" or "502"; the delay before
    retry number [i] is 1000 * 2^i ms capped at 5000 ms.  Whatever the query
    function does, the retryer therefore calls it at most twice, with a delay
    of 1000 ms before the second call.  For this query function, which turns
    every failure into the default configuration, no error reaches the
    retryer: a 4xx response, like every other outcome, settles the query at
    its first call. *)
Theorem C8_retry_policy :
  (forall failureCount error,
     retry failureCount error = true ->
     failureCount = 0%nat /\ isError error = true
     /\ let errorMessage := JsString.toLowerCase (errMessage error) in
        (JsString.includes errorMessage "network" = true
         \/ JsString.includes errorMessage "timeout" = true
         \/ JsString.includes errorMessage "500" = true
         \/ JsString.includes errorMessage "503" = true
         \/ JsString.includes errorMessage "502" = true))
  /\ (forall i,
        retryDelay i = Z.min (1000 * 2 ^ Z.of_nat i) 5000
        /\ (1000 <= retryDelay i <= 5000)%Z
        /\ (retryDelay i <= retryDelay (S i))%Z)
  /\ (forall (A : Type) (attempt : nat -> Throws A) (fuel : nat),
        exists delays result,
          retryer (2 + fuel) attempt 0 [] = Some (delays, result)
          /\ (delays = [] /\ result = attempt 0%nat
              \/ delays = [1000%Z] /\ result = attempt 1%nat
                 /\ exists error, attempt 0%nat = inl error
                                  /\ retry 0 error = true))
  /\ (forall fullYear world fuel,
        useAppConfig fullYear (1 + fuel) world
        = Some ([], queryFn fullYear (world 0%nat)))
  /\ (forall fullYear a res,
        fetched a = FetchResolves res ->
        (400 <= status res < 500)%Z ->
        queryFn fullYear a = inr (JObj (DEFAULT_CONFIG fullYear))).
Proof.
  split; [exact retry_true|]. split; [|split; [|split]].
  - intros i. split; [reflexivity | apply retryDelay_bounds].
  - intros A attempt fuel. cbn [retryer Nat.add].
    destruct (attempt 0%nat) as [error|v] eqn:E0.
    + destruct (retry 0 error) eqn:R; [|eauto 10].
      destruct (attempt 1%nat) as [error'|v'] eqn:E1.
      * rewrite retry_after_failure by lia. simpl. eauto 10.
      * simpl. eauto 10.
    + eauto 10.
  - intros fullYear world fuel. unfold useAppConfig. cbn [retryer Nat.add].
    destruct (queryFn_settles fullYear (world 0%nat)) as (cfg & -> & _).
    reflexivity.
  - intros fullYear a res F Hs.
    apply (queryFn_not_ok fullYear a res F).
    unfold ok. destruct (Z.leb_spec (status res) 299); [lia|]. apply andb_false_r.
Qed.

(** C8 on a network error offered to [retry], and on a 404 response. *)
Lemma C8_witness :
  (0 = 0 /\ isError (newError "Network request failed") = true
   /\ (JsString.includes "network request failed" "network" = true
       \/ JsString.includes "network request failed" "timeout" = true
       \/ JsString.includes "network request failed" "500" = true
       \/ JsString.includes "network request failed" "503" = true
       \/ JsString.includes "network request failed" "502" = true))%nat
  /\ queryFn "2025" notFound = inr (JObj (DEFAULT_CONFIG "2025")).
Proof.
  split.
  - apply (proj1 C8_retry_policy 0%nat (newError "Network request failed")).
    reflexivity.
  - apply (proj2 (proj2 (proj2 (proj2 C8_retry_policy))) "2025" notFound
             (mkResponse 404 "Not Found" (JsonRejects (newError "no body"))));
      [reflexivity | simpl; lia].
Defined.

End ConfigSpec.

(* ===================================================================== *)
(** * Further properties of the lead-submission schema *)
(* ===================================================================== *)

Module SchemaMore.

Import Zod Schema ZodFacts JsStringFacts SchemaFacts Phone.

Lemma countDigits_append (a b : string) :
  countDigits (a +:+ b) = (countDigits a + countDigits b)%nat.
Proof.
  induction a as [|c a IH]; cbn [countDigits String.append]; [reflexivity|].
  rewrite IH. lia.
Qed.

Lemma countDigits_allDigits (s : string) :
  allDigits s = true -> countDigits s = JsString.length s.
Proof.
  unfold JsString.length.
  induction s as [|c s IH]; cbn [allDigits countDigits String.length]; [reflexivity|].
  intros H. apply andb_true_iff in H as [Hc Hs]. unfold isDigit.
  rewrite Hc, (IH Hs). reflexivity.
Qed.

Lemma countDigits_removeWhiteSpace (s : string) :
  countDigits (JsString.removeWhiteSpace s) = countDigits s.
Proof.
  induction s as [|c s IH]; cbn [countDigits JsString.removeWhiteSpace]; [reflexivity|].
  destruct (JsString.isWhiteSpace c) eqn:W; cbn [countDigits]; rewrite IH; [|reflexivity].
  replace (isDigit c) with false; [reflexivity|].
  revert W. destruct c as [[] [] [] [] [] [] [] []]; vm_compute; congruence.
Qed.

Lemma optionalChar_facts (c : ascii) (s : string) :
  isDigit c = false -> optionalChar c s ->
  countDigits s = 0%nat /\ (JsString.length s <= 1)%nat.
Proof.
  intros Hc [-> | ->]; cbn [countDigits]; [|rewrite Hc]; vm_compute; auto.
Qed.

Lemma optionalSeparator_facts (s : string) :
  optionalSeparator s -> countDigits s = 0%nat /\ (JsString.length s <= 1)%nat.
Proof.
  intros [-> | (c & -> & H)]; [vm_compute; auto|].
  split; [|vm_compute; auto]. cbn [countDigits].
  replace (isDigit c) with false; [reflexivity|].
  destruct H as [-> | [H | ->]]; [reflexivity | | reflexivity].
  revert H. destruct c as [[] [] [] [] [] [] [] []]; vm_compute; congruence.
Qed.

Lemma digitGroup_facts (lo hi : nat) (s : string) :
  digitGroup lo hi s ->
  (lo <= countDigits s <= hi)%nat /\ countDigits s = JsString.length s.
Proof. intros (D & L & H). rewrite (countDigits_allDigits s D). lia. Qed.

Lemma pattern_digits (s : string) :
  LoosePhonePattern s ->
  (10 <= countDigits s <= 12)%nat /\ (10 <= JsString.length s <= 17)%nat.
Proof.
  intros (plus & lpar & area & rpar & sep1 & exch & sep2 & sub & -> &
          Hplus & Hlpar & Harea & Hrpar & Hsep1 & Hexch & Hsep2 & Hsub).
  rewrite !countDigits_append, !length_append.
  apply (optionalChar_facts "+") in Hplus as [? ?]; [|reflexivity].
  apply (optionalChar_facts "(") in Hlpar as [? ?]; [|reflexivity].
  apply (optionalChar_facts ")") in Hrpar as [? ?]; [|reflexivity].
  apply optionalSeparator_facts in Hsep1 as [? ?], Hsep2 as [? ?].
  apply digitGroup_facts in Harea as [? ?], Hexch as [? ?], Hsub as [? ?].
  lia.
Qed.

Lemma phoneCheck_iff (p : string) :
  phoneCheck (Some p) = true <->
  p = EmptyString \/ LoosePhonePattern (JsString.removeWhiteSpace p).
Proof.
  destruct p as [|c p].
  - split; [now left | reflexivity].
  - cbn [phoneCheck]. rewrite RegexFacts.test_Matches, PhoneFacts.phoneRegex_pattern.
    split; [now right | intros [H|H]; [discriminate | exact H]].
Qed.

Lemma phone_messages (purify : string -> string) (emailRegex : string -> bool)
  (input : RawLead) (p : string) :
  raw_phone input = JsString p ->
  messagesAt "phone" (issues (safeParse (leadSubmissionSchema purify emailRegex) input))
  = if phoneCheck (Some p) then [] else ["Please enter a valid phone number"].
Proof.
  intros H.
  rewrite (proj1 (proj2 (proj2 (schema_messages purify emailRegex input)))), H.
  rewrite phoneSchema_string. now destruct (phoneCheck (Some p)).
Qed.

(** A phone number that is accepted and not empty has 10 to 12 digits, and
    10 to 17 characters once its white space is removed. *)
Theorem accepted_phone_has_ten_to_twelve_digits
  (purify : string -> string) (emailRegex : string -> bool)
  (input : RawLead) (p : string)
  (Hphone : raw_phone input = JsString p)
  (Hnonempty : p <> EmptyString)
  (Haccepted :
     messagesAt "phone"
       (issues (safeParse (leadSubmissionSchema purify emailRegex) input)) = []) :
  (10 <= countDigits p <= 12)%nat
  /\ (10 <= JsString.length (JsString.removeWhiteSpace p) <= 17)%nat.
Proof.
  rewrite (phone_messages purify emailRegex input p Hphone) in Haccepted.
  destruct (phoneCheck (Some p)) eqn:E; [|discriminate].
  apply phoneCheck_iff in E as [E | E]; [contradiction|].
  rewrite <- (countDigits_removeWhiteSpace p). now apply pattern_digits.
Qed.

Lemma accepted_phone_witness :
  (10 <= countDigits "(555) 123-4567" <= 12)%nat
  /\ (10 <= JsString.length (JsString.removeWhiteSpace "(555) 123-4567") <= 17)%nat.
Proof.
  apply (accepted_phone_has_ten_to_twelve_digits
           Reference.stripTags Reference.emailFormat
           (mkRaw (JsString "John Doe") (JsString "john@example.com")
              (JsString "(555) 123-4567") (JsString "Test message"))
           "(555) 123-4567");
    [reflexivity | discriminate | vm_compute; reflexivity].
Defined.

(** White space inside a phone number does not matter: two non-empty phone
    strings that are equal once their white space is removed are both
    accepted or both rejected.  A phone made only of white space is
    rejected, although the empty string is accepted. *)
Theorem phone_white_space_is_ignored
  (purify : string -> string) (emailRegex : string -> bool) (input : RawLead)
  (p q : string) :
  let phoneIssues v :=
    messagesAt "phone"
      (issues (safeParse (leadSubmissionSchema purify emailRegex)
                 (withPhone (JsString v) input))) in
  (p <> EmptyString -> q <> EmptyString ->
   JsString.removeWhiteSpace p = JsString.removeWhiteSpace q ->
   phoneIssues p = phoneIssues q)
  /\ (p <> EmptyString -> JsString.removeWhiteSpace p = EmptyString ->
      phoneIssues p = ["Please enter a valid phone number"])
  /\ phoneIssues EmptyString = [].
Proof.
  cbv beta zeta.
  rewrite (phone_messages purify emailRegex (withPhone (JsString p) input) p eq_refl).
  rewrite (phone_messages purify emailRegex (withPhone (JsString q) input) q eq_refl).
  rewrite (phone_messages purify emailRegex
             (withPhone (JsString EmptyString) input) EmptyString eq_refl).
  split; [|split].
  - intros Hp Hq E. destruct p, q; try congruence.
    cbn [phoneCheck]. now rewrite E.
  - intros Hp E. destruct p; [congruence|]. cbn [phoneCheck]. now rewrite E.
  - reflexivity.
Qed.

Lemma phone_white_space_witness :
  messagesAt "phone"
    (issues (safeParse (leadSubmissionSchema Reference.stripTags Reference.emailFormat)
       (withPhone (JsString "555 123 4567") (Samples.johnDoe "John Doe" "Hello"))))
  = messagesAt "phone"
    (issues (safeParse (leadSubmissionSchema Reference.stripTags Reference.emailFormat)
       (withPhone (JsString " 5551234567 ") (Samples.johnDoe "John Doe" "Hello"))))
  /\ messagesAt "phone"
    (issues (safeParse (leadSubmissionSchema Reference.stripTags Reference.emailFormat)
       (withPhone (JsString "  ") (Samples.johnDoe "John Doe" "Hello"))))
  = ["Please enter a valid phone number"].
Proof.
  split.
  - apply (proj1 (phone_white_space_is_ignored
                    Reference.stripTags Reference.emailFormat
                    (Samples.johnDoe "John Doe" "Hello")
                    "555 123 4567" " 5551234567 "));
      [discriminate | discriminate | reflexivity].
  - apply (proj1 (proj2 (phone_white_space_is_ignored
                    Reference.stripTags Reference.emailFormat
                    (Samples.johnDoe "John Doe" "Hello") "  " "  ")));
      [discriminate | reflexivity].
Defined.

(** What an accepted submission always satisfies, whatever the sanitizer
    does: the name returned is not empty, the message returned has 1 to 1000
    characters, both are free of white space at their ends, and the phone
    returned is absent, empty, or has the loose phone pattern once its white
    space is removed. *)
Theorem accepted_values_are_within_bounds
  (purify : string -> string) (emailRegex : string -> bool)
  (input : RawLead) (out : LeadSubmission)
  (Haccepted : safeParse (leadSubmissionSchema purify emailRegex) input = Success out) :
  (1 <= JsString.length (name out))%nat
  /\ JsString.trim (name out) = name out
  /\ (1 <= JsString.length (message out) <= 1000)%nat
  /\ JsString.trim (message out) = message out
  /\ match phone out with
     | None => True
     | Some p => p = EmptyString \/ LoosePhonePattern (JsString.removeWhiteSpace p)
     end.
Proof.
  apply schema_success in Haccepted as (Hn & _ & Hp & Hm).
  apply nameSchema_OK in Hn as (n & _ & -> & Hn).
  apply messageSchema_OK in Hm as (m & _ & -> & Hm).
  apply nameMessages_nil in Hn. apply messageMessages_nil in Hm.
  unfold sanitizeInput in *.
  repeat split; try lia; try apply trim_idem.
  apply phoneSchema_OK in Hp as [[_ ->] | (p & _ & -> & Hp)]; [exact I|].
  now apply phoneCheck_iff.
Qed.

Lemma accepted_values_witness :
  (1 <= JsString.length "John Doe")%nat
  /\ JsString.trim "John Doe" = "John Doe"
  /\ (1 <= JsString.length "I'm interested" <= 1000)%nat
  /\ JsString.trim "I'm interested" = "I'm interested"
  /\ (EmptyString = EmptyString
      \/ LoosePhonePattern (JsString.removeWhiteSpace EmptyString)).
Proof.
  apply (accepted_values_are_within_bounds
           Reference.stripTags Reference.emailFormat
           (mkRaw (JsString "  John Doe  ") (JsString "JOHN@EXAMPLE.COM")
              (JsString EmptyString) (JsString "  I'm interested  "))
           (mkLead "John Doe" "john@example.com" (Some EmptyString) "I'm interested")).
  vm_compute. reflexivity.
Defined.

Section NoSilentFailure.

Variable purify : string -> string.
Variable emailRegex : string -> bool.







End NoSilentFailure.



End SchemaMore.

(* ===================================================================== *)
(** * Properties of the field helpers of the wizard *)
(* ===================================================================== *)

Module ValidationSpec.

Import Regex RegexFacts JsStringFacts Validation.

Lemma max_length_positive (field : Field) : (0 < FIELD_MAX_LENGTHS field)%Z.
Proof. destruct field; reflexivity. Qed.

Lemma lengthOf_nonneg (value : string) : (0 <= lengthOf value)%Z.
Proof. unfold lengthOf. lia. Qed.

(** The character counter never shows the over-limit text: the remaining
    count is clamped at 0, so a value longer than the field's maximum reads
    "length/max (0 remaining)"; a value within the maximum reads
    "length/max", followed by " (r remaining)" when the [r] characters left
    are less than a tenth of the maximum. *)
Theorem char_count_text_never_over_limit (field : Field) (value : string) :
  let shown := pretty (lengthOf value) +:+ "/" +:+ pretty (FIELD_MAX_LENGTHS field) in
  (exceedsMaxLength field value = true ->
   getCharCountText field value = shown +:+ " (0 remaining)")
  /\ (exceedsMaxLength field value = false ->
      let r := (FIELD_MAX_LENGTHS field - lengthOf value)%Z in
      getRemainingChars field value = r
      /\ getCharCountText field value
         = if (10 * r <? FIELD_MAX_LENGTHS field)%Z
           then shown +:+ " (" +:+ pretty r +:+ " remaining)"
           else shown).
Proof.
  cbv zeta. unfold exceedsMaxLength, getCharCountText.
  pose proof (max_length_positive field) as Hmax.
  split; intros H.
  - apply Z.ltb_lt in H.
    assert (R : getRemainingChars field value = 0%Z)
      by (unfold getRemainingChars; lia).
    rewrite R. change (10 * 0)%Z with 0%Z. change (0 <? 0)%Z with false.
    destruct (Z.ltb_spec 0 (FIELD_MAX_LENGTHS field)); [|lia].
    rewrite !append_assoc. reflexivity.
  - apply Z.ltb_ge in H.
    assert (R : getRemainingChars field value
                = (FIELD_MAX_LENGTHS field - lengthOf value)%Z)
      by (unfold getRemainingChars; lia).
    rewrite R. split; [reflexivity|].
    destruct (Z.ltb_spec (FIELD_MAX_LENGTHS field - lengthOf value) 0); [lia|].
    destruct (10 * (FIELD_MAX_LENGTHS field - lengthOf value)
              <? FIELD_MAX_LENGTHS field)%Z; [|reflexivity].
    now rewrite !append_assoc.
Qed.

Lemma char_count_text_witness :
  getCharCountText primaryColor "#2563eb-and-far-too-long"
  = "24/20 (0 remaining)".
Proof.
  rewrite (proj1 (char_count_text_never_over_limit primaryColor
                    "#2563eb-and-far-too-long")); reflexivity.
Defined.

Lemma lengthOf_empty (value : string) : lengthOf value = 0%Z -> value = EmptyString.
Proof. unfold lengthOf. intros H. apply length_zero. lia. Qed.

Lemma validateTitle_valid (value : string) :
  valid (validateTitle value) = true <-> (5 <= lengthOf value <= 60)%Z.
Proof.
  unfold validateTitle. destruct value as [|c s].
  - cbn [valid]. change (lengthOf EmptyString) with 0%Z. split; [discriminate | lia].
  - destruct (Z.ltb_spec (lengthOf (String c s)) 5); cbn [valid];
      [split; [discriminate | lia]|].
    destruct (Z.ltb_spec 60 (lengthOf (String c s))); cbn [valid];
      split; first [discriminate | lia | reflexivity].
Qed.

Lemma validateDescription_valid (value : string) :
  valid (validateDescription value) = true <-> (10 <= lengthOf value <= 300)%Z.
Proof.
  unfold validateDescription. destruct value as [|c s].
  - cbn [valid]. change (lengthOf EmptyString) with 0%Z. split; [discriminate | lia].
  - destruct (Z.ltb_spec (lengthOf (String c s)) 10); cbn [valid];
      [split; [discriminate | lia]|].
    destruct (Z.ltb_spec 300 (lengthOf (String c s))); cbn [valid];
      split; first [discriminate | lia | reflexivity].
Qed.

(** The two feedback helpers accept exactly the titles of 5 to 60 characters
    and the descriptions of 10 to 300 characters, give a suggestion exactly
    when they reject, and what they accept never exceeds the maximum length
    of a title field or of a description field. *)
Theorem feedback_accepts_within_field_limits (value : string) :
  (valid (validateTitle value) = true <-> (5 <= lengthOf value <= 60)%Z)
  /\ (valid (validateDescription value) = true <-> (10 <= lengthOf value <= 300)%Z)
  /\ (suggestion (validateTitle value) = None <-> valid (validateTitle value) = true)
  /\ (suggestion (validateDescription value) = None <->
      valid (validateDescription value) = true)
  /\ (valid (validateTitle value) = true ->
      forall field, In field [heroTitle; formTitle; pageTitle; ogTitle] ->
                    exceedsMaxLength field value = false)
  /\ (valid (validateDescription value) = true ->
      forall field,
        In field [heroDescription; formDescription; footerDescription;
                  metaDescription; ogDescription] ->
        exceedsMaxLength field value = false).
Proof.
  split; [apply validateTitle_valid|]. split; [apply validateDescription_valid|].
  split; [|split; [|split]].
  - unfold validateTitle. destruct value; [simpl; split; discriminate|].
    destruct (_ <? 5)%Z; [simpl; split; discriminate|].
    destruct (60 <? _)%Z; simpl; split; first [discriminate | reflexivity].
  - unfold validateDescription. destruct value; [simpl; split; discriminate|].
    destruct (_ <? 10)%Z; [simpl; split; discriminate|].
    destruct (300 <? _)%Z; simpl; split; first [discriminate | reflexivity].
  - intros H field Hf. apply validateTitle_valid in H.
    unfold exceedsMaxLength. apply Z.ltb_ge.
    simpl in Hf. destruct Hf as [<-|[<-|[<-|[<-|[]]]]]; simpl; lia.
  - intros H field Hf. apply validateDescription_valid in H.
    unfold exceedsMaxLength. apply Z.ltb_ge.
    simpl in Hf. destruct Hf as [<-|[<-|[<-|[<-|[<-|[]]]]]]; simpl; lia.
Qed.

Lemma feedback_witness :
  exceedsMaxLength metaDescription "A short description of the site." = false.
Proof.
  apply (proj2 (proj2 (proj2 (proj2 (proj2
           (feedback_accepts_within_field_limits
              "A short description of the site."))))));
    [reflexivity | simpl; auto 10].
Defined.

Lemma Matches_Times_Cls (p : ascii -> bool) (n : nat) (s : string) :
  Matches (Times (Cls p) n) s ->
  JsString.length s = n /\ forall a c b, s = a +:+ String c b -> p c = true.
Proof.
  revert s. induction n as [|n IH]; intros s; simpl.
  - rewrite Matches_Eps. intros ->. split; [reflexivity|].
    intros [|] ? ? ?; discriminate.
  - rewrite Matches_Cat. intros (x & y & -> & Hx & Hy).
    apply Matches_Cls in Hx as (d & -> & Hd). apply IH in Hy as [L H].
    split; [unfold JsString.length in *; simpl; now rewrite L|].
    intros [|e a] c b E; simpl in E; injection E as -> ->; [exact Hd|].
    eapply H; reflexivity.
Qed.

Lemma allHexDigits_spec (s : string) :
  allHexDigits s = true <-> forall a c b, s = a +:+ String c b -> isHexDigit c = true.
Proof.
  induction s as [|x s IH]; cbn [allHexDigits].
  - split; [|reflexivity]. intros _ [|] ? ? ?; discriminate.
  - rewrite andb_true_iff, IH. split.
    + intros [Hx Hs] [|y a] c b E; simpl in E; injection E as -> ->; [exact Hx|].
      eapply Hs; reflexivity.
    + intros H. split.
      * apply (H EmptyString x s); reflexivity.
      * intros a c b ->. apply (H (String x a) c b); reflexivity.
Qed.

Lemma Times_Cls_Matches (p : ascii -> bool) (s : string) :
  (forall a c b, s = a +:+ String c b -> p c = true) ->
  Matches (Times (Cls p) (JsString.length s)) s.
Proof.
  induction s as [|x s IH]; intros H; unfold JsString.length; simpl.
  - constructor.
  - change (String x s) with (String x EmptyString +:+ s). constructor.
    + constructor. apply (H EmptyString x s); reflexivity.
    + apply IH. intros a c b ->. apply (H (String x a) c b); reflexivity.
Qed.

Lemma hex_digits_Matches (n : nat) (s : string) :
  Matches (Times hexDigit n) s <-> JsString.length s = n /\ allHexDigits s = true.
Proof.
  unfold hexDigit. rewrite allHexDigits_spec. split.
  - apply Matches_Times_Cls.
  - intros [<- H]. now apply Times_Cls_Matches.
Qed.

Lemma isValidHexColor_shape (color : string) :
  isValidHexColor color = true <->
  exists digits, color = String "#" digits
                 /\ JsString.length digits = 6%nat /\ allHexDigits digits = true.
Proof.
  unfold isValidHexColor. rewrite test_Matches, Matches_Cat. split.
  - intros (x & y & -> & Hx & Hy). apply PhoneFacts.Matches_Chr in Hx as ->.
    apply hex_digits_Matches in Hy. eauto.
  - intros (digits & -> & H). exists (String "#" EmptyString), digits.
    split; [reflexivity|]. split; [now apply PhoneFacts.Matches_Chr|].
    now apply hex_digits_Matches.
Qed.

Lemma allHexDigits_lower (s : string) :
  allHexDigits (JsString.toLowerCase s) = allHexDigits s.
Proof.
  induction s as [|c s IH]; cbn [allHexDigits JsString.toLowerCase]; [reflexivity|].
  rewrite IH. f_equal. destruct c as [[] [] [] [] [] [] [] []]; reflexivity.
Qed.

(** The wizard's colour test accepts exactly a hash sign followed by six
    hexadecimal digits.  Every colour it accepts is accepted by the theme's
    own test in [App.tsx] (which also takes three digits), fits the maximum
    length of the colour fields, and stays accepted when put in lower
    case. *)
Theorem hex_colour_is_hash_and_six_digits (color : string) :
  (isValidHexColor color = true <->
   exists digits, color = String "#" digits
                  /\ JsString.length digits = 6%nat /\ allHexDigits digits = true)
  /\ (isValidHexColor color = true ->
      App.isValidHexColor color = true
      /\ exceedsMaxLength primaryColor color = false
      /\ exceedsMaxLength secondaryColor color = false
      /\ isValidHexColor (JsString.toLowerCase color) = true).
Proof.
  split; [apply isValidHexColor_shape|].
  intros H. pose proof H as H'. apply isValidHexColor_shape in H' as (digits & -> & L & D).
  repeat split.
  - unfold App.isValidHexColor. apply test_Matches, Matches_Cat.
    exists (String "#" EmptyString), digits.
    split; [reflexivity|]. split; [now apply PhoneFacts.Matches_Chr|].
    apply MAltL. now apply hex_digits_Matches.
  - unfold exceedsMaxLength, lengthOf, JsString.length in *. simpl. rewrite L. reflexivity.
  - unfold exceedsMaxLength, lengthOf, JsString.length in *. simpl. rewrite L. reflexivity.
  - apply isValidHexColor_shape. exists (JsString.toLowerCase digits).
    split; [reflexivity|]. rewrite toLowerCase_length, allHexDigits_lower. auto.
Qed.

Lemma hex_colour_witness :
  App.isValidHexColor "#10B981" = true
  /\ exceedsMaxLength primaryColor "#10B981" = false
  /\ exceedsMaxLength secondaryColor "#10B981" = false
  /\ isValidHexColor (JsString.toLowerCase "#10B981") = true.
Proof.
  apply (proj2 (hex_colour_is_hash_and_six_digits "#10B981")). reflexivity.
Defined.

End ValidationSpec.

(* ===================================================================== *)
(** * Properties of safeLocalStorage *)
(* ===================================================================== *)

Module StorageSpec.

Import Storage.

(** The three operations of the wrapper never throw, whatever the browser
    raises: each returns a value. *)
Theorem safeLocalStorage_never_throws (key value : string) (b : Browser) :
  (exists v b', getItem key b = (inr v, b'))
  /\ (exists v b', setItem key value b = (inr v, b'))
  /\ (exists v b', removeItem key b = (inr v, b')).
Proof. repeat split; walk; eauto. Qed.

(** What the results of the wrapper tell, whatever the browser raises: when
    [setItem] returns true the value is stored under the key; when
    [removeItem] returns true the key is gone; when [getItem] returns a
    string it is the one stored and the items are as they were; and no
    operation ever changes another key. *)
Theorem safeLocalStorage_results_are_reliable
  (key value : string) (b b' : Browser) :
  (setItem key value b = (inr true, b') -> items b' !! key = Some value)
  /\ (removeItem key b = (inr true, b') -> items b' !! key = None)
  /\ (forall v, getItem key b = (inr (Some v), b') ->
        items b !! key = Some v /\ items b' = items b)
  /\ (forall r other, other <> key ->
        (getItem key b = (r, b') -> items b' !! other = items b !! other))
  /\ (forall r other, other <> key ->
        (setItem key value b = (r, b') -> items b' !! other = items b !! other))
  /\ (forall r other, other <> key ->
        (removeItem key b = (r, b') -> items b' !! other = items b !! other)).
Proof.
  repeat split.
  - walk; intros [= <-]; cbn [items]; apply lookup_insert_eq.
  - walk; intros [= <-]; cbn [items]; apply lookup_delete_eq.
  - revert H. walk; intros [= E <-]; cbn [items]; try discriminate; congruence.
  - revert H. walk; intros [= E <-]; cbn [items]; try discriminate; congruence.
  - intros r other Hne. walk; intros [= _ <-]; cbn [items];
      rewrite ?lookup_delete_ne by congruence; reflexivity.
  - intros r other Hne. walk; intros [= _ <-]; cbn [items];
      rewrite ?lookup_insert_ne, ?lookup_delete_ne by congruence; reflexivity.
  - intros r other Hne. walk; intros [= _ <-]; cbn [items];
      rewrite ?lookup_delete_ne by congruence; reflexivity.
Qed.

Lemma safeLocalStorage_results_witness :
  items (snd (setItem SETUP_STORAGE_KEY "3" fullOnce)) !! SETUP_STORAGE_KEY = Some "3".
Proof.
  apply (proj1 (safeLocalStorage_results_are_reliable SETUP_STORAGE_KEY "3" fullOnce
                  (snd (setItem SETUP_STORAGE_KEY "3" fullOnce)))).
  reflexivity.
Defined.

(** In a browser whose storage works and raises nothing, what is written is
    read back, and what is removed reads as absent; the browser stays that
    way. *)
Theorem safeLocalStorage_round_trip (key value : string) (b : Browser)
  (Hhealthy : healthy b) :
  (exists b1,
     setItem key value b = (inr true, b1) /\ healthy b1
     /\ getItem key b1 = (inr (Some value), b1))
  /\ (exists b2,
        removeItem key b = (inr true, b2) /\ healthy b2
        /\ getItem key b2 = (inr None, b2)).
Proof.
  destruct b as [av its fs]. destruct Hhealthy as [Ha Hf]. simpl in Ha, Hf. subst.
  split; eexists; (split; [reflexivity|]); (split; [split; reflexivity|]);
    unfold getItem, tryCatch, bind, storageMissing, localStorage_getItem, call, ret;
    cbn [faults items available negb].
  - now rewrite lookup_insert_eq.
  - now rewrite lookup_delete_eq.
Qed.

Lemma safeLocalStorage_round_trip_witness :
  exists b1,
    setItem SETUP_STORAGE_KEY "3" (mkBrowser true ∅ []) = (inr true, b1)
    /\ healthy b1
    /\ getItem SETUP_STORAGE_KEY b1 = (inr (Some "3"), b1).
Proof.
  apply (proj1 (safeLocalStorage_round_trip SETUP_STORAGE_KEY "3" (mkBrowser true ∅ [])
                  (conj eq_refl eq_refl))).
Defined.

(** When the storage is missing the wrapper reports it and changes nothing:
    reading gives [null], writing and removing give false. *)
Theorem safeLocalStorage_without_storage (key value : string) (b : Browser)
  (Hmissing : available b = false)
  (Hquiet : faults b = []) :
  getItem key b = (inr None, b)
  /\ setItem key value b = (inr false, b)
  /\ removeItem key b = (inr false, b).
Proof.
  unfold getItem, setItem, removeItem, tryCatch, bind, storageMissing, call, ret.
  rewrite Hquiet, Hmissing. auto.
Qed.

Lemma safeLocalStorage_without_storage_witness :
  getItem SETUP_STORAGE_KEY (mkBrowser false ∅ []) = (inr None, mkBrowser false ∅ [])
  /\ setItem SETUP_STORAGE_KEY "3" (mkBrowser false ∅ [])
     = (inr false, mkBrowser false ∅ [])
  /\ removeItem SETUP_STORAGE_KEY (mkBrowser false ∅ [])
     = (inr false, mkBrowser false ∅ []).
Proof.
  apply (safeLocalStorage_without_storage SETUP_STORAGE_KEY "3" (mkBrowser false ∅ []));
    reflexivity.
Defined.

(** A write that hits the quota removes the key and tries again; when the
    second try fails as well, the write returns false and the value that was
    stored under the key is lost. *)
Theorem failed_write_erases_the_key
  (key value : string) (b : Browser) (quota again : Thrown)
  (rest : list (option Thrown))
  (Havailable : available b = true)
  (Hquota : isDOMException quota = true /\ isQuotaExceeded quota = true)
  (Hfaults : faults b = None :: Some quota :: None :: Some again :: rest) :
  setItem key value b
  = (inr false, mkBrowser true (delete key (items b)) rest)
  /\ items (snd (setItem key value b)) !! key = None.
Proof.
  destruct Hquota as [Hd Hq].
  assert (E : setItem key value b
              = (inr false, mkBrowser true (delete key (items b)) rest)).
  { unfold setItem, tryCatch, bind, storageMissing, localStorage_setItem,
      localStorage_removeItem, call, ret.
    rewrite Hfaults. cbn [faults items available negb]. rewrite Havailable.
    cbn [negb faults items available]. rewrite Hd, Hq. reflexivity. }
  split; [exact E|]. rewrite E. cbn [snd items]. apply lookup_delete_eq.
Qed.

Lemma failed_write_witness :
  items (snd (setItem SETUP_STORAGE_KEY "4"
                (mkBrowser true {[ SETUP_STORAGE_KEY := "3" ]}
                   [None; Some (mkThrown true "QuotaExceededError"); None;
                    Some (mkThrown true "QuotaExceededError")])))
    !! SETUP_STORAGE_KEY = None.
Proof.
  apply (proj2 (failed_write_erases_the_key SETUP_STORAGE_KEY "4"
                  (mkBrowser true {[ SETUP_STORAGE_KEY := "3" ]}
                     [None; Some (mkThrown true "QuotaExceededError"); None;
                      Some (mkThrown true "QuotaExceededError")])
                  (mkThrown true "QuotaExceededError")
                  (mkThrown true "QuotaExceededError") []
                  eq_refl (conj eq_refl eq_refl) eq_refl)).
Defined.

End StorageSpec.

(* ===================================================================== *)
(** * Saving and restoring the step of the wizard *)
(* ===================================================================== *)

Module WizardStepsSpec.

Import Wizard Storage WizardSteps.












Lemma restore_value (b : Browser) :
  exists saved b',
    getItem SETUP_STORAGE_KEY b = (inr saved, b')
    /\ restoreProgress b = (inr (mkProgress (initialStep saved) false), b').
Proof.
  destruct (getItem SETUP_STORAGE_KEY b) as [[e|saved] b'] eqn:E.
  - exfalso. revert E. Storage.walk; discriminate.
  - exists saved, b'. split; [reflexivity|].
    unfold restoreProgress, bind. now rewrite E.
Qed.

Lemma initialStep_range (saved : option string) : (1 <= initialStep saved <= 9)%Z.
Proof.
  unfold initialStep. destruct saved as [[|c s]|]; try lia.
  destruct (parseInt (String c s)) as [n|]; [|lia].
  destruct (Z.leb_spec 1 n), (Z.leb_spec n 9); simpl; lia.
Qed.

(** Whatever the browser does, the wizard comes up on a step from 1 to 9 with
    the Slack preference off, shows exactly one step panel, or on step 9 the
    completion notice with the completion component, and never the Slack
    form.  With the storage missing it comes up on step 1. *)
Theorem restored_wizard_is_on_a_valid_step (b : Browser) :
  (exists p b',
     restoreProgress b = (inr p, b')
     /\ (1 <= step p <= TOTAL_STEPS p)%Z
     /\ wantsSlack p = false
     /\ ~ In SlackSetup (panels p)
     /\ (length (panels p) = 1%nat \/ panels p = [SetupCompleteNotice; Completion]))
  /\ (available b = false -> faults b = [] ->
      restoreProgress b = (inr (mkProgress 1 false), b)).
Proof.
  split.
  - destruct (restore_value b) as (saved & b' & _ & E).
    exists (mkProgress (initialStep saved) false), b'.
    split; [exact E|]. pose proof (initialStep_range saved) as R.
    cbn [step wantsSlack TOTAL_STEPS]. split; [lia|]. split; [reflexivity|].
    assert (initialStep saved = 1 \/ initialStep saved = 2 \/ initialStep saved = 3
            \/ initialStep saved = 4 \/ initialStep saved = 5 \/ initialStep saved = 6
            \/ initialStep saved = 7 \/ initialStep saved = 8 \/ initialStep saved = 9)%Z
      as H by lia.
    unfold panels. cbn [step wantsSlack].
    repeat (destruct H as [-> | H];
            [cbn; split; [intuition discriminate | auto]|]).
    rewrite H. cbn. split; [intuition discriminate | auto].
  - intros Ha Hf. unfold restoreProgress, bind, getItem, tryCatch, bind,
      storageMissing, call, ret. rewrite Hf, Ha. reflexivity.
Qed.

Lemma restored_wizard_witness :
  restoreProgress (mkBrowser false ∅ []) = (inr (mkProgress 1 false), mkBrowser false ∅ []).
Proof.
  apply (proj2 (restored_wizard_is_on_a_valid_step (mkBrowser false ∅ [])));
    reflexivity.
Defined.



End WizardStepsSpec.

(* ===================================================================== *)
(** * The configuration fetch: merging a partial response *)
(* ===================================================================== *)

Module ConfigMore.

Import Config.

Lemma default_has_branding_and_content (fullYear : string) :
  falsy (DEFAULT_CONFIG fullYear !! "branding") = false
  /\ falsy (DEFAULT_CONFIG fullYear !! "content") = false.
Proof. split; vm_compute; reflexivity. Qed.

(** When the server's object lacks a truthy branding or content, the query
    function returns the defaults with the server's keys over them: every key
    the server sent keeps the server's value, even a branding or content that
    is null, false, 0 or empty, and only a key the server did not send takes
    its default. *)
Theorem merge_keeps_what_the_server_sent
  (fullYear : string) (a : Attempt) (res : Response) (m : gmap string Json)
  (Hfetched : fetched a = FetchResolves res)
  (Hlive : abortedAfterFetch a = false)
  (Hok : ok res = true)
  (Hjson : json res = JsonResolves (JObj m))
  (Hpartial : falsy (m !! "branding") || falsy (m !! "content") = true) :
  exists cfg,
    queryFn fullYear a = inr (JObj cfg)
    /\ (forall key v, m !! key = Some v -> cfg !! key = Some v)
    /\ (forall key, m !! key = None -> cfg !! key = DEFAULT_CONFIG fullYear !! key)
    /\ (m !! "branding" = None -> falsy (cfg !! "branding") = false)
    /\ (forall v, m !! "branding" = Some v -> falsy (Some v) = true ->
          falsy (cfg !! "branding") = true).
Proof.
  exists (m ∪ DEFAULT_CONFIG fullYear).
  split; [|split; [|split; [|split]]].
  - unfold queryFn, tryBlock, ret. rewrite Hfetched, Hlive, Hok, Hjson.
    cbn [negb falsy typeofObject orb prop]. rewrite Hpartial. reflexivity.
  - intros key v H. now apply lookup_union_Some_l.
  - intros key H. now apply lookup_union_r.
  - intros H. rewrite lookup_union_r by exact H.
    apply default_has_branding_and_content.
  - intros v H Hv. now rewrite (lookup_union_Some_l _ _ _ _ H).
Qed.

Lemma merge_witness :
  exists cfg,
    queryFn "2025"
      (mkAttempt (FetchResolves (mkResponse 200 "OK" (JsonResolves (JObj nullBranding))))
         false false)
    = inr (JObj cfg)
    /\ falsy (cfg !! "branding") = true.
Proof.
  assert (Hpartial : falsy (nullBranding !! "branding")
                     || falsy (nullBranding !! "content") = true)
    by (vm_compute; reflexivity).
  destruct (merge_keeps_what_the_server_sent "2025"
              (mkAttempt
                 (FetchResolves (mkResponse 200 "OK" (JsonResolves (JObj nullBranding))))
                 false false)
              (mkResponse 200 "OK" (JsonResolves (JObj nullBranding)))
              nullBranding eq_refl eq_refl eq_refl eq_refl Hpartial)
    as (cfg & E & _ & _ & _ & H).
  exists cfg. split; [exact E|].
  apply (H JNull); [vm_compute; reflexivity | reflexivity].
Defined.

End ConfigMore.

(* ===================================================================== *)
(** * The forms: the message an error shows *)
(* ===================================================================== *)

Module FormsSpec.

Import Forms.

Lemma orElse_nonempty (a b : string) : b <> EmptyString -> orElse a b <> EmptyString.
Proof. destruct a; simpl; [auto | discriminate]. Qed.

(** Neither form ever shows an empty message for an error: an error without
    a message gets the form's fallback text.  An error with status 412 is
    shown as an incomplete setup whatever its message says, and an error with
    status 403 makes the demo form fetch a new CSRF token. *)
Theorem form_error_message_is_never_empty (error : ApiError) :
  getErrorMessage error <> EmptyString
  /\ rootMessage error <> EmptyString
  /\ (status error = Some 412%Z ->
      getErrorMessage error
      = "Setup incomplete. Please complete the setup wizard to enable form submissions."
      /\ rootMessage error
         = "Setup incomplete. Please complete the setup wizard at /setup to enable form submissions.")
  /\ (status error = Some 403%Z -> refreshesCsrfToken error = true).
Proof.
  split; [|split; [|split]].
  - unfold getErrorMessage. destruct (setupIncomplete error); [discriminate|].
    apply orElse_nonempty. discriminate.
  - unfold rootMessage. destruct (setupIncomplete error); [discriminate|].
    destruct (_ || _); [discriminate|]. destruct (_ || _); [discriminate|].
    apply orElse_nonempty. discriminate.
  - intros H. unfold getErrorMessage, rootMessage, setupIncomplete, statusIs.
    rewrite H. split; reflexivity.
  - intros H. unfold refreshesCsrfToken, statusIs. rewrite H. apply orb_true_r.
Qed.

Lemma form_error_witness :
  getErrorMessage (mkApiError "Precondition Failed" (Some 412%Z))
  = "Setup incomplete. Please complete the setup wizard to enable form submissions."
  /\ rootMessage (mkApiError "Precondition Failed" (Some 412%Z))
     = "Setup incomplete. Please complete the setup wizard at /setup to enable form submissions.".
Proof.
  apply (proj1 (proj2 (proj2 (form_error_message_is_never_empty
                                (mkApiError "Precondition Failed" (Some 412%Z)))))).
  reflexivity.
Defined.

End FormsSpec.
